(** * The natural-language query pipeline of the e-commerce backend

    A shallow embedding of [app/services/query_processor.py],
    [app/services/llm.py], [app/services/database.py] and the query route of
    [app/routes/queries.py], with the properties of the pipeline, its safety
    gate, the response envelope parser and the health report.

    Conventions of the embedding:
    - a Python [str] is a list of Unicode code points ([N]);
    - a Python [float] is an exact rational (binary64 rounding, overflow and
      the sign of zero are not represented), plus the three special values;
    - values that cross [json.loads], the database client or a response
      dictionary are [pyval]s; a [dict] is an insertion-ordered association
      list with unique keys;
    - the language model, the database client and the clock are
      collaborators whose answers may depend on everything that happened
      before: they are functions of the trace of events so far;
    - code that calls collaborators or raises lives in the monad [M]: it
      maps the trace so far to an exception or a value, and the new trace;
    - only exceptions deriving from [Exception] are represented; logging
      calls are left out. *)

From Stdlib Require Import Ascii String.
From Stdlib Require Import List NArith ZArith QArith Bool Lia.
Import ListNotations.

Set Implicit Arguments.
Set Warnings "-register-all".

(* ================================================================== *)
(** * Python strings *)
(* ================================================================== *)

Module PyStr.

Definition char := N.
Definition str := list char.

(** A literal of the source, code point by code point (the literals of the
    modelled code are ASCII). *)
Definition lit (s : string) : str := map N_of_ascii (list_ascii_of_string s).

(** The double quote, which a literal cannot hold. *)
Definition dq : str := [34%N].
Definition quoted (s : string) : str := dq ++ lit s ++ dq.

Fixpoint str_eqb (a b : str) : bool :=
  match a, b with
  | [], [] => true
  | x :: a', y :: b' => N.eqb x y && str_eqb a' b'
  | _, _ => false
  end.

(** [s.startswith(prefix)] *)
Fixpoint startswith (s prefix : str) {struct prefix} : bool :=
  match prefix with
  | [] => true
  | p :: prefix' =>
      match s with
      | [] => false
      | c :: s' => N.eqb c p && startswith s' prefix'
      end
  end.

(** [sub in s] *)
Fixpoint contains (sub s : str) : bool :=
  startswith s sub ||
  match s with
  | [] => false
  | _ :: s' => contains sub s'
  end.

(** [s.find(sub)], counting from index [i] of the whole string. *)
Fixpoint find_from (sub s : str) (i : Z) : Z :=
  if startswith s sub then i
  else match s with
       | [] => (-1)%Z
       | _ :: s' => find_from sub s' (i + 1)%Z
       end.

Definition find (s sub : str) : Z := find_from sub s 0%Z.

(** [s.rfind(sub)], counting from index [i] of the whole string. *)
Fixpoint rfind_from (sub s : str) (i : Z) : Z :=
  match s with
  | [] => if startswith [] sub then i else (-1)%Z
  | _ :: s' =>
      let r := rfind_from sub s' (i + 1)%Z in
      if (r =? -1)%Z then (if startswith s sub then i else (-1)%Z) else r
  end.

Definition rfind (s sub : str) : Z := rfind_from sub s 0%Z.

(** [s[start:stop]] with Python's treatment of negative and overlong
    indices. *)
Definition slice_index (len i : Z) : Z :=
  if (i <? 0)%Z then Z.max 0 (i + len) else Z.min i len.

Definition slice (s : str) (start stop : Z) : str :=
  let len := Z.of_nat (length s) in
  let a := slice_index len start in
  let b := slice_index len stop in
  firstn (Z.to_nat (b - a)) (skipn (Z.to_nat a) s).

(** [s.replace(old, new)] for a non-empty [old]: occurrences are replaced
    from the left and do not overlap; [skip] counts the characters of a
    replaced occurrence still to be dropped. *)
Fixpoint replace_aux (old new : str) (skip : nat) (s : str) : str :=
  match s with
  | [] => []
  | c :: s' =>
      match skip with
      | S k => replace_aux old new k s'
      | O =>
          if startswith s old
          then new ++ replace_aux old new (length old - 1) s'
          else c :: replace_aux old new 0 s'
      end
  end.

Definition replace (s old new : str) : str := replace_aux old new 0 s.

(** The characters [str.strip()] removes: those for which
    [str.isspace()] holds. *)
Definition isspace (c : char) : bool :=
  ((9 <=? c) && (c <=? 13) || (28 <=? c) && (c <=? 32)
   || (c =? 133) || (c =? 160) || (c =? 5760)
   || (8192 <=? c) && (c <=? 8202)
   || (c =? 8232) || (c =? 8233) || (c =? 8239) || (c =? 8287)
   || (c =? 12288))%N.

Fixpoint lstrip (s : str) : str :=
  match s with
  | [] => []
  | c :: s' => if isspace c then lstrip s' else s
  end.

Definition rstrip (s : str) : str := rev (lstrip (rev s)).

Definition strip (s : str) : str := rstrip (lstrip s).

(** [sep.join(parts)] *)
Fixpoint join (sep : str) (parts : list str) : str :=
  match parts with
  | [] => []
  | [p] => p
  | p :: parts' => p ++ sep ++ join sep parts'
  end.

(** Truthiness of a string: [not s] holds of the empty string only. *)
Definition is_empty (s : str) : bool :=
  match s with [] => true | _ => false end.

(** Lowercasing restricted to the letters A-Z; it agrees with [str.lower()]
    on ASCII text and is the case mapping used by the test doubles. *)
Definition ascii_lower_char (c : char) : char :=
  if ((65 <=? c) && (c <=? 90))%N then (c + 32)%N else c.

Definition ascii_lower (s : str) : str := map ascii_lower_char s.

End PyStr.
Export PyStr.

(* ================================================================== *)
(** * Python values and dictionaries *)
(* ================================================================== *)

Inductive pyfloat :=
| Finite (q : Q)
| PosInf
| NegInf
| NaN.

Inductive pyval :=
| VNone
| VBool (b : bool)
| VInt (z : Z)
| VFloat (f : pyfloat)
| VStr (s : str)
| VList (l : list pyval)
| VDict (d : list (str * pyval))
| VDatetime (t : Q).

Definition dict := list (str * pyval).

Module Dict.

(** [d.get(k)] *)
Fixpoint get (d : dict) (k : str) : option pyval :=
  match d with
  | [] => None
  | (k', v) :: d' => if str_eqb k' k then Some v else get d' k
  end.

(** [k in d] *)
Definition mem (k : str) (d : dict) : bool :=
  match get d k with Some _ => true | None => false end.

(** [d.get(k, default)] *)
Definition get_default (d : dict) (k : str) (default : pyval) : pyval :=
  match get d k with Some v => v | None => default end.

(** [d[k] = v]: an existing key keeps its place, a new one goes last. *)
Fixpoint setitem (d : dict) (k : str) (v : pyval) : dict :=
  match d with
  | [] => [(k, v)]
  | (k', v') :: d' =>
      if str_eqb k' k then (k', v) :: d' else (k', v') :: setitem d' k v
  end.

Definition keys (d : dict) : list str := map fst d.

End Dict.

(* ================================================================== *)
(** * [json.loads]

    The decoder of the standard library, with its scanner: the grammar it
    accepts (the constants [NaN], [Infinity] and [-Infinity] included),
    strict strings, last-wins duplicate keys.  The text of a
    [JSONDecodeError] is kept without its position.  Not represented: the
    interpreter's recursion limit and its bound on the digits of an
    integer literal, which make the interpreter raise on some texts of the
    grammar.  A failure of [loads] is therefore a failure of the
    interpreter's decoder, and a value the interpreter's decoder returns
    is the value of [loads]; the converse of neither is claimed. *)
(* ================================================================== *)

Module Json.

Inductive scan (A : Type) :=
| Scanned (a : A) (rest : str)
| Fail (msg : str)
| Fuel.
Arguments Fail {A} msg.
Arguments Fuel {A}.

Definition is_ws (c : char) : bool :=
  ((c =? 32) || (c =? 9) || (c =? 10) || (c =? 13))%N.

Fixpoint skip_ws (s : str) : str :=
  match s with
  | [] => []
  | c :: s' => if is_ws c then skip_ws s' else s
  end.

Definition is_digit (c : char) : bool := ((48 <=? c) && (c <=? 57))%N.

Definition hex_digit (c : char) : option N :=
  if is_digit c then Some (c - 48)%N
  else if ((97 <=? c) && (c <=? 102))%N then Some (c - 87)%N
  else if ((65 <=? c) && (c <=? 70))%N then Some (c - 55)%N
  else None.

Definition hex4 (a b c d : char) : option N :=
  match hex_digit a, hex_digit b, hex_digit c, hex_digit d with
  | Some x, Some y, Some z, Some w => Some (((x * 16 + y) * 16 + z) * 16 + w)%N
  | _, _, _, _ => None
  end.

Definition is_high_surrogate (u : N) : bool := ((55296 <=? u) && (u <=? 56319))%N.
Definition is_low_surrogate (u : N) : bool := ((56320 <=? u) && (u <=? 57343))%N.
Definition join_surrogates (hi lo : N) : N :=
  (65536 + ((hi - 55296) * 1024 + (lo - 56320)))%N.

(** The one-letter escapes after a backslash. *)
Definition simple_escape (c : char) : option char :=
  if (c =? 34)%N then Some 34%N            (* quote *)
  else if (c =? 92)%N then Some 92%N       (* backslash *)
  else if (c =? 47)%N then Some 47%N       (* slash *)
  else if (c =? 98)%N then Some 8%N        (* b *)
  else if (c =? 102)%N then Some 12%N      (* f *)
  else if (c =? 110)%N then Some 10%N      (* n *)
  else if (c =? 114)%N then Some 13%N      (* r *)
  else if (c =? 116)%N then Some 9%N       (* t *)
  else None.

Definition invalid_uXXXX : str := lit "Invalid \uXXXX escape".

(** [scanstring], entered after the opening quote: the message of the
    error, or the decoded string and the text after the closing quote;
    [acc] holds the decoded characters in reverse. *)
Fixpoint scanstring (acc : str) (s : str) : str + str * str :=
  match s with
  | [] => inl (lit "Unterminated string starting at")
  | c :: t =>
      if (c =? 34)%N then inr (rev acc, t)
      else if (c =? 92)%N then
        match t with
        | [] => inl (lit "Unterminated string starting at")
        | e :: t1 =>
            if (e =? 117)%N then
              match t1 with
              | h1 :: h2 :: h3 :: h4 :: t2 =>
                  match hex4 h1 h2 h3 h4 with
                  | None => inl invalid_uXXXX
                  | Some u =>
                      if is_high_surrogate u then
                        match t2 with
                        | b :: u' :: l1 :: l2 :: l3 :: l4 :: t3 =>
                            if ((b =? 92) && (u' =? 117))%N then
                              match hex4 l1 l2 l3 l4 with
                              | None => inl invalid_uXXXX
                              | Some u2 =>
                                  if is_low_surrogate u2
                                  then scanstring (join_surrogates u u2 :: acc) t3
                                  else scanstring (u :: acc) t2
                              end
                            else scanstring (u :: acc) t2
                        | _ => scanstring (u :: acc) t2
                        end
                      else scanstring (u :: acc) t2
                  end
              | _ => inl invalid_uXXXX
              end
            else
              match simple_escape e with
              | Some x => scanstring (x :: acc) t1
              | None => inl (lit "Invalid \escape")
              end
        end
      else if (c <=? 31)%N then inl (lit "Invalid control character at")
      else scanstring (c :: acc) t
  end.

(** The longest prefix of digits, and what follows it. *)
Fixpoint span_digits (s : str) : str * str :=
  match s with
  | [] => ([], [])
  | c :: s' =>
      if is_digit c
      then let (ds, r) := span_digits s' in (c :: ds, r)
      else ([], s)
  end.

Definition digits_value (ds : str) : Z :=
  fold_left (fun acc c => (acc * 10 + Z.of_N (c - 48))%Z) ds 0%Z.

(** The value of the literal [sign int . frac e exp]. *)
Definition decimal_value (neg : bool) (int frac : str) (exp : Z) : Q :=
  let m := digits_value (int ++ frac) in
  let e := (exp - Z.of_nat (length frac))%Z in
  Qred (inject_Z (if neg then - m else m) * Qpower (10 # 1) e).

(** The number pattern of the scanner: an optional minus sign; a zero, or
    a non-zero digit and any digits; optionally a dot and at least one
    digit; optionally [e] or [E], an optional sign and at least one digit.
    Each part returns what it read and the text after it. *)
Definition number_sign (s : str) : bool * str :=
  match s with
  | c :: t => if (c =? 45)%N then (true, t) else (false, s)
  | [] => (false, s)
  end.

Definition number_int (s : str) : option (str * str) :=
  match s with
  | c :: t =>
      if (c =? 48)%N then Some ([c], t)
      else if is_digit c then Some (span_digits s)
      else None
  | [] => None
  end.

Definition number_frac (s : str) : option str * str :=
  match s with
  | c :: t =>
      if (c =? 46)%N then
        match span_digits t with
        | ([], _) => (None, s)
        | (ds, r) => (Some ds, r)
        end
      else (None, s)
  | [] => (None, s)
  end.

Definition exponent_sign (s : str) : bool * str :=
  match s with
  | g :: t =>
      if (g =? 45)%N then (true, t)
      else if (g =? 43)%N then (false, t)
      else (false, s)
  | [] => (false, s)
  end.

Definition number_exp (s : str) : option Z * str :=
  match s with
  | c :: t =>
      if ((c =? 101) || (c =? 69))%N then
        let (eneg, t1) := exponent_sign t in
        match span_digits t1 with
        | ([], _) => (None, s)
        | (ds, r) =>
            (Some (if eneg then (- digits_value ds)%Z else digits_value ds), r)
        end
      else (None, s)
  | [] => (None, s)
  end.

(** A literal with a fraction or an exponent is a float, any other an
    int. *)
Definition match_number (s : str) : option (pyval * str) :=
  let (neg, s1) := number_sign s in
  match number_int s1 with
  | None => None
  | Some (int, s2) =>
      let (frac, s3) := number_frac s2 in
      let (exp, s4) := number_exp s3 in
      match frac, exp with
      | None, None =>
          Some (VInt (if neg then (- digits_value int)%Z else digits_value int), s4)
      | _, _ =>
          Some (VFloat (Finite (decimal_value neg int
                                  (match frac with Some ds => ds | None => [] end)
                                  (match exp with Some e => e | None => 0%Z end))),
                s4)
      end
  end.

Definition expecting_value : str := lit "Expecting value".
Definition expecting_name : str :=
  lit "Expecting property name enclosed in double quotes".
Definition expecting_colon : str := lit "Expecting ':' delimiter".
Definition expecting_comma : str := lit "Expecting ',' delimiter".

(** [scan_once] with the object and array loops it recurses through.  A
    loop is entered on a proper suffix of the text of the call that enters
    it and scans its first item from where it stands, so [fuel] larger than
    twice the length of the text is never used up. *)
Fixpoint scan_once (fuel : nat) (s : str) {struct fuel} : scan pyval :=
  match fuel with
  | O => Fuel
  | S f =>
      match s with
      | [] => Fail expecting_value
      | c :: t =>
          if (c =? 34)%N then
            match scanstring [] t with
            | inr (x, r) => Scanned (VStr x) r
            | inl m => Fail m
            end
          else if (c =? 123)%N then
            match skip_ws t with
            | c1 :: r =>
                if (c1 =? 125)%N then Scanned (VDict []) r
                else object_loop f [] (c1 :: r)
            | [] => Fail expecting_name
            end
          else if (c =? 91)%N then
            match skip_ws t with
            | c1 :: r =>
                if (c1 =? 93)%N then Scanned (VList []) r
                else array_loop f [] (c1 :: r)
            | [] => Fail expecting_value
            end
          else if startswith s (lit "null") then Scanned VNone (skipn 4 s)
          else if startswith s (lit "true") then Scanned (VBool true) (skipn 4 s)
          else if startswith s (lit "false") then Scanned (VBool false) (skipn 5 s)
          else if startswith s (lit "NaN") then Scanned (VFloat NaN) (skipn 3 s)
          else if startswith s (lit "Infinity") then Scanned (VFloat PosInf) (skipn 8 s)
          else if startswith s (lit "-Infinity") then Scanned (VFloat NegInf) (skipn 9 s)
          else
            match match_number s with
            | Some (v, r) => Scanned v r
            | None => Fail expecting_value
            end
      end
  end

(** The members of an object, from the quote that opens a key. *)
with object_loop (fuel : nat) (acc : dict) (s : str) {struct fuel} : scan pyval :=
  match fuel with
  | O => Fuel
  | S f =>
      match s with
      | [] => Fail expecting_name
      | c :: t =>
          if negb (c =? 34)%N then Fail expecting_name
          else
            match scanstring [] t with
            | inl m => Fail m
            | inr (key, r) =>
                match skip_ws r with
                | [] => Fail expecting_colon
                | c2 :: r2 =>
                    if negb (c2 =? 58)%N then Fail expecting_colon
                    else
                      match scan_once f (skip_ws r2) with
                      | Fuel => Fuel
                      | Fail m => Fail m
                      | Scanned v r3 =>
                          let acc' := Dict.setitem acc key v in
                          match skip_ws r3 with
                          | [] => Fail expecting_comma
                          | c3 :: r4 =>
                              if (c3 =? 125)%N then Scanned (VDict acc') r4
                              else if (c3 =? 44)%N then object_loop f acc' (skip_ws r4)
                              else Fail expecting_comma
                          end
                      end
                end
            end
      end
  end

(** The items of an array, from the first character of an item; [acc]
    holds the items read so far in reverse. *)
with array_loop (fuel : nat) (acc : list pyval) (s : str) {struct fuel} : scan pyval :=
  match fuel with
  | O => Fuel
  | S f =>
      match scan_once f s with
      | Fuel => Fuel
      | Fail m => Fail m
      | Scanned v r =>
          match skip_ws r with
          | [] => Fail expecting_comma
          | c :: r1 =>
              if (c =? 93)%N then Scanned (VList (rev (v :: acc))) r1
              else if (c =? 44)%N then array_loop f (v :: acc) (skip_ws r1)
              else Fail expecting_comma
          end
      end
  end.

(** [json.loads(s)] for a [str]: the message of the [JSONDecodeError], or
    the decoded value. *)
Definition loads (s : str) : str + pyval :=
  if startswith s [65279%N]
  then inl (lit "Unexpected UTF-8 BOM (decode using utf-8-sig)")
  else
    let s1 := skip_ws s in
    match scan_once (2 * length s1 + 1) s1 with
    | Scanned v r =>
        match skip_ws r with
        | [] => inr v
        | _ :: _ => inl (lit "Extra data")
        end
    | Fail m => inl m
    | Fuel => inl (lit "maximum recursion depth exceeded")
    end.

End Json.

(* ================================================================== *)
(** * Exceptions, collaborators and the monad of the services *)
(* ================================================================== *)

(** An exception is represented by the most specific of these classes it is
    an instance of, with [str(e)].  [JSONDecodeError] and pydantic's
    [ValidationError] derive from [ValueError]; [Exception] stands for every
    other class deriving from it. *)
Inductive exn :=
| ValueError (msg : str)
| JSONDecodeError (msg : str)
| ValidationError (msg : str)
| ConnectionError (msg : str)
| Exception (msg : str).

Definition exn_str (e : exn) : str :=
  match e with
  | ValueError m | JSONDecodeError m | ValidationError m
  | ConnectionError m | Exception m => m
  end.

Definition is_ValueError (e : exn) : bool :=
  match e with
  | ValueError _ | JSONDecodeError _ | ValidationError _ => true
  | _ => false
  end.

Definition is_JSONDecodeError (e : exn) : bool :=
  match e with JSONDecodeError _ => true | _ => false end.

Definition is_ConnectionError (e : exn) : bool :=
  match e with ConnectionError _ => true | _ => false end.

(** What a run does to the outside, in order. *)
Inductive event :=
| EvTime                       (* [time.time()] *)
| EvNow                        (* [datetime.now()] *)
| EvGenerate (prompt : str)    (* [model.generate_content(prompt)] *)
| EvExecuteQuery (sql : str)   (* [execute_query(sql)] is entered *)
| EvRpc (sql : str)            (* the [execute_dynamic_query] remote call *)
| EvSelectUsers.               (* the probe query of the database health check *)

Definition trace := list event.

(** The Gemini model object: the [text] of the response to a prompt, or the
    exception raised by the call or by reading [text]. *)
Record GenerativeModel := {
  generate_content : trace -> str -> exn + str
}.

(** The Supabase client: the [data] of the response to the remote call
    ([None] or a list of rows), and the probe of the [users] table. *)
Record Client := {
  rpc_execute_dynamic_query : trace -> str -> exn + option (list pyval);
  table_users_select_id : trace -> exn + unit
}.

(** Everything the services take from outside: the two client attributes
    ([None] when not initialised), the system clock, and the library
    functions whose tables are not reproduced here. *)
Record Env := {
  supabase : option Client;                 (* [database_service.supabase] *)
  model : option GenerativeModel;           (* [gemini_service.model] *)
  clock : trace -> Q;                       (* seconds, read by [time.time()] and [datetime.now()] *)
  lower : str -> str;                       (* [str.lower()] *)
  json_dumps : list pyval -> str;           (* [json.dumps(rows, indent=2, ensure_ascii=False, default=str)] *)
  lax_float : pyval -> option pyfloat;      (* pydantic's coercion of a [bool] or [str] input to [float] *)
  DATABASE_SCHEMA : str                     (* the schema text of [database.py] *)
}.

Definition M (A : Type) : Type := trace -> (exn + A) * trace.

Definition ret {A} (a : A) : M A := fun h => (inr a, h).

Definition bind {A B} (m : M A) (k : A -> M B) : M B :=
  fun h =>
    match m h with
    | (inl e, h') => (inl e, h')
    | (inr a, h') => k a h'
    end.

Definition raise {A} (e : exn) : M A := fun h => (inl e, h).

(** [try: body except Exception as e: handler e] *)
Definition try_except {A} (body : M A) (handler : exn -> M A) : M A :=
  fun h =>
    match body h with
    | (inl e, h') => handler e h'
    | (inr a, h') => (inr a, h')
    end.

(** A call that cannot touch the outside. *)
Definition lift {A} (r : exn + A) : M A := fun h => (r, h).

(** A call to the outside: its answer depends on the trace so far, and the
    call is recorded. *)
Definition call {A} (answer : trace -> exn + A) (ev : event) : M A :=
  fun h => (answer h, h ++ [ev]).

Declare Scope monad_scope.
Delimit Scope monad_scope with monad.
Notation "x <- m ;; k" := (bind m (fun x => k))
  (at level 61, m at next level, right associativity) : monad_scope.
Notation "m ;; k" := (bind m (fun _ => k))
  (at level 61, right associativity) : monad_scope.
Local Open Scope monad_scope.

Definition time_time (E : Env) : M Q := call (fun h => inr (clock E h)) EvTime.
Definition datetime_now (E : Env) : M Q := call (fun h => inr (clock E h)) EvNow.

(* ================================================================== *)
(** * [app/models/schemas.py] *)
(* ================================================================== *)

Record SQLQueryResult := {
  sql_query : str;
  original_query : str;
  confidence : option pyfloat
}.

(** Validation of a [str] field: of the values [json.loads] produces, only
    a string is accepted. *)
Definition validate_str (v : pyval) : option str :=
  match v with VStr s => Some s | _ => None end.

(** The least magnitude of an [int] that [float()] cannot convert: half
    way between the largest float and two to the power 1024. *)
Definition float_overflow : Z := (2 ^ 1024 - 2 ^ 970)%Z.

(** Validation of an [Optional[float]] field: an [int] is converted, and
    rejected when the conversion overflows. *)
Definition validate_optional_float (E : Env) (v : pyval) : option (option pyfloat) :=
  match v with
  | VNone => Some None
  | VFloat f => Some (Some f)
  | VInt z =>
      if (Z.abs z <? float_overflow)%Z
      then Some (Some (Finite (inject_Z z)))
      else None
  | VBool _ | VStr _ => option_map Some (lax_float E v)
  | VList _ | VDict _ | VDatetime _ => None
  end.

(** [SQLQueryResult(sql_query=.., original_query=.., confidence=..)]; the
    text of the validation error is kept without its details. *)
Definition SQLQueryResult_init (E : Env) (sql orig conf : pyval) : exn + SQLQueryResult :=
  match validate_str sql, validate_str orig, validate_optional_float E conf with
  | Some s, Some o, Some c =>
      inr {| sql_query := s; original_query := o; confidence := c |}
  | _, _, _ => inl (ValidationError (lit "validation error for SQLQueryResult"))
  end.

(** [HumanQueryResponse(answer=.., sql_query=.., execution_time=..).dict()] *)
Definition HumanQueryResponse_dict (answer sql : str) (execution_time : Q) : dict :=
  [ (lit "answer", VStr answer);
    (lit "sql_query", VStr sql);
    (lit "execution_time", VFloat (Finite execution_time)) ].

(** [ErrorResponse(error=.., details=..).dict()]: the timestamp is filled
    by [datetime.now] when the object is built. *)
Definition ErrorResponse_dict (E : Env) (error : str) (details : option str) : M dict :=
  now <- datetime_now E ;;
  ret [ (lit "error", VStr error);
        (lit "details", match details with Some d => VStr d | None => VNone end);
        (lit "timestamp", VDatetime now) ].

(* ================================================================== *)
(** * [app/config.py] *)
(* ================================================================== *)

Module Config.

(** The settings the two services read; each is the value of an
    environment variable, the empty string when it is not set. *)
Record Settings := {
  SUPABASE_URL : str;
  SUPABASE_KEY : str;
  GEMINI_API_KEY : str;
  GEMINI_MODEL : str
}.

(** [bool(self.SUPABASE_URL and self.SUPABASE_KEY)] *)
Definition supabase_configured (settings : Settings) : bool :=
  negb (is_empty (SUPABASE_URL settings)) && negb (is_empty (SUPABASE_KEY settings)).

(** [bool(self.GEMINI_API_KEY)] *)
Definition gemini_configured (settings : Settings) : bool :=
  negb (is_empty (GEMINI_API_KEY settings)).

End Config.

(* ================================================================== *)
(** * [app/services/database.py] *)
(* ================================================================== *)

Module DatabaseService.
Section WithEnv.
Variable E : Env.

(** [execute_query]: the remote call, its rows ([[]] for an empty or
    missing [data]), every failure re-raised as a plain [Exception]. *)
Definition execute_query (sql_query : str) : M (list pyval) :=
  call (fun _ => inr tt) (EvExecuteQuery sql_query) ;;
  match supabase E with
  | None => raise (ConnectionError (lit "Supabase client not initialized"))
  | Some client =>
      try_except
        (data <- call (fun h => rpc_execute_dynamic_query client h sql_query)
                      (EvRpc sql_query) ;;
         ret (match data with
              | Some (r :: rows) => r :: rows
              | _ => []
              end))
        (fun e => raise (Exception (lit "Error executing query: " ++ exn_str e)))
  end.

Definition health_check : M bool :=
  match supabase E with
  | None => ret false
  | Some client =>
      try_except
        (call (table_users_select_id client) EvSelectUsers ;; ret true)
        (fun _ => ret false)
  end.

End WithEnv.

(** The constructor with [_initialize_client]: the value of the attribute
    [supabase] of the new service, [None] before the client is made;
    [create_client] is the factory of the Supabase library. *)
Definition _initialize_client (settings : Config.Settings)
    (create_client : str -> str -> exn + Client) : exn + option Client :=
  let supabase : option Client := None in
  if negb (Config.supabase_configured settings)
  then inl (ValueError (lit "Supabase is not configured correctly"))
  else
    match create_client (Config.SUPABASE_URL settings) (Config.SUPABASE_KEY settings) with
    | inr client => inr (Some client)
    | inl e => inl (ConnectionError (lit "Could not connect to Supabase: " ++ exn_str e))
    end.

End DatabaseService.

(* ================================================================== *)
(** * [app/services/llm.py] *)
(* ================================================================== *)

Module GeminiService.
Section WithEnv.
Variable E : Env.

(** The prompt of [human_query_to_sql]. *)
Definition sql_prompt (human_query database_schema : str) : str :=
  lit "
You are an expert in PostgreSQL databases for an e-commerce system. Your task is to understand customer queries given in natural format and transform them into SQL that can answer them.

IMPORTANT RULES:
- Return ONLY a valid JSON object
- Do not include additional text before or after the JSON
- Do NOT include semicolons at the end of SQL statements
- Use ONLY the tables and columns listed below
- Generate valid and efficient SQL for PostgreSQL
- Use proper table aliases when joining tables
- For product recommendations, focus on products table with relevant filters
- For user queries, use the users table
- For order queries, join orders with order_items and products
- categories (Accessories, Smartphones, Laptops, Audio)

DATABASE SCHEMA:
" ++ database_schema ++ lit "

REQUIRED RESPONSE FORMAT:
{
    " ++ quoted "sql_query" ++ lit ": "
  ++ quoted "SELECT * FROM users WHERE role = 'admin';" ++ lit ",
    " ++ quoted "original_query" ++ lit ": "
  ++ quoted "user's original query" ++ lit ",
    " ++ quoted "confidence" ++ lit ": 0.95
}

USER QUERY: " ++ human_query ++ lit "
            ".

(** The prompt of [build_answer]; [data] is the serialised row list. *)
Definition answer_prompt (human_query data : str) : str :=
  lit "
You are an ecommerce assistant that generates natural language responses based on your ecommerce stock.

INSTRUCTIONS:
- Respond in English naturally and conversationally
- Be concise but informative
- If there's no data, explain it in a friendly way (No stock available)
- Include relevant information from the data (names, prices, quantities, etc.)
- Use a professional but approachable tone
- For products, mention names, prices, and availability when relevant
- For users, mention general information without sensitive data
- For orders, include totals and statuses
-DOES NOT use special formatting like *, **, etc.

ORIGINAL QUESTION: " ++ human_query ++ lit "

DATABASE DATA:
" ++ data ++ lit "

Generate a natural and helpful response based on this data:
            ".

(** [_clean_json_response]: the text from the first opening brace to the
    last closing brace, without code-fence markers, stripped. *)
Definition _clean_json_response (response_text : str) : exn + str :=
  let start_idx := find response_text (lit "{") in
  let end_idx := (rfind response_text (lit "}") + 1)%Z in
  if ((start_idx =? -1) || (end_idx =? 0))%Z
  then inl (ValueError (lit "No valid JSON found in response"))
  else
    let json_str := slice response_text start_idx end_idx in
    let json_str := replace (replace json_str (lit "```json") []) (lit "```") [] in
    let json_str := strip json_str in
    inr json_str.

(** [key in obj] and [obj.get(key, default)] on whatever [json.loads]
    returned. *)
Definition py_in (key : str) (obj : pyval) : exn + bool :=
  match obj with
  | VDict d => inr (Dict.mem key d)
  | VList l =>
      inr (existsb (fun x => match x with VStr s => str_eqb s key | _ => false end) l)
  | VStr s => inr (contains key s)
  | _ => inl (Exception (lit "argument is not iterable"))
  end.

Definition py_get (obj : pyval) (key : str) (default : pyval) : exn + pyval :=
  match obj with
  | VDict d => inr (Dict.get_default d key default)
  | _ => inl (Exception (lit "object has no attribute 'get'"))
  end.

Definition json_loads (s : str) : exn + pyval :=
  match Json.loads s with
  | inl msg => inl (JSONDecodeError msg)
  | inr v => inr v
  end.

(** The [try] block of [human_query_to_sql]. *)
Definition human_query_to_sql_body (m : GenerativeModel)
    (human_query database_schema : str) : M SQLQueryResult :=
  let system_prompt := sql_prompt human_query database_schema in
  response_text <- call (fun h => generate_content m h system_prompt)
                        (EvGenerate system_prompt) ;;
  if is_empty response_text
  then raise (Exception (lit "Gemini did not generate a response"))
  else
    cleaned_response <- lift (_clean_json_response response_text) ;;
    result_dict <- lift (json_loads cleaned_response) ;;
    has_key <- lift (py_in (lit "sql_query") result_dict) ;;
    if negb has_key
    then raise (ValueError (lit "Respuesta de Gemini no contiene 'sql_query'"))
    else
      sql <- lift (py_get result_dict (lit "sql_query") (VStr [])) ;;
      orig <- lift (py_get result_dict (lit "original_query") (VStr human_query)) ;;
      conf <- lift (py_get result_dict (lit "confidence") (VFloat (Finite (1 # 2)))) ;;
      lift (SQLQueryResult_init E sql orig conf).

Definition human_query_to_sql (human_query database_schema : str) : M SQLQueryResult :=
  match model E with
  | None => raise (ConnectionError (lit "Gemini client not initialized"))
  | Some m =>
      try_except
        (human_query_to_sql_body m human_query database_schema)
        (fun e =>
           if is_JSONDecodeError e
           then raise (Exception (lit "Error in Gemini response format: " ++ exn_str e))
           else raise (Exception (lit "Error processing query with Gemini: " ++ exn_str e)))
  end.

(** [build_answer]: at most ten rows go into the prompt. *)
Definition build_answer (query_result : list pyval) (human_query : str) : M str :=
  match model E with
  | None => raise (ConnectionError (lit "Gemini client not initialized"))
  | Some m =>
      try_except
        (let limited_result :=
           if (10 <? length query_result)%nat
           then firstn 10 query_result
           else query_result in
         let system_prompt := answer_prompt human_query (json_dumps E limited_result) in
         response_text <- call (fun h => generate_content m h system_prompt)
                               (EvGenerate system_prompt) ;;
         if is_empty response_text
         then raise (Exception (lit "Gemini did not generate a response for build_answer"))
         else ret (strip response_text))
        (fun e => raise (Exception (lit "Error generating natural response: " ++ exn_str e)))
  end.

Definition health_prompt : str := lit "Respond 'OK' if the service works correctly".

Definition health_check : M bool :=
  match model E with
  | None => ret false
  | Some m =>
      try_except
        (response_text <- call (fun h => generate_content m h health_prompt)
                               (EvGenerate health_prompt) ;;
         let is_working :=
           negb (is_empty response_text) && contains (lit "ok") (lower E response_text) in
         ret is_working)
        (fun _ => ret false)
  end.

End WithEnv.

(** The constructor with [_initialize_client]: the value of the attribute
    [model] of the new service; [make_model] stands for [genai.configure]
    with the key followed by [genai.GenerativeModel] with the model
    name. *)
Definition _initialize_client (settings : Config.Settings)
    (make_model : str -> str -> exn + GenerativeModel) : exn + option GenerativeModel :=
  let model : option GenerativeModel := None in
  if negb (Config.gemini_configured settings)
  then inl (ValueError (lit "Gemini is not configured correctly"))
  else
    match make_model (Config.GEMINI_API_KEY settings) (Config.GEMINI_MODEL settings) with
    | inr m => inr (Some m)
    | inl e => inl (ConnectionError (lit "Could not connect to Gemini: " ++ exn_str e))
    end.

End GeminiService.

(* ================================================================== *)
(** * [app/services/query_processor.py] *)
(* ================================================================== *)

Module QueryProcessor.
Section WithEnv.
Variable E : Env.

Definition dangerous_operations : list str :=
  [ lit "drop"; lit "delete"; lit "insert"; lit "update"; lit "alter";
    lit "create"; lit "truncate"; lit "grant"; lit "revoke"; lit "exec";
    lit "execute" ].

(** The loop over the dangerous operations: the first one found in the
    query, if any. *)
Fixpoint first_dangerous (operations : list str) (cleaned_query : str) : option str :=
  match operations with
  | [] => None
  | operation :: operations' =>
      if contains operation cleaned_query
      then Some operation
      else first_dangerous operations' cleaned_query
  end.

(** [validate_query_safety]; its argument is a [str], on which nothing in
    the body raises, so the handler of the source is never entered. *)
Definition validate_query_safety (sql_query : str) : bool :=
  let cleaned_query := lower E (strip sql_query) in
  match first_dangerous dangerous_operations cleaned_query with
  | Some _ => false
  | None =>
      if negb (startswith cleaned_query (lit "select")) then false
      else true
  end.

(** The messages collected by [_verify_services_configured]. *)
Definition configuration_errors : list str :=
  (match supabase E with None => [lit "Supabase is not configured"] | Some _ => [] end)
  ++ (match model E with None => [lit "Gemini is not configured"] | Some _ => [] end).

Definition _verify_services_configured : M unit :=
  let errors := configuration_errors in
  match errors with
  | [] => ret tt
  | _ :: _ =>
      let error_msg := lit "Services not configured: " ++ join (lit ", ") errors in
      raise (ValueError error_msg)
  end.

Definition _create_error_response (error_message : str) (details : option str) : M dict :=
  ErrorResponse_dict E error_message details.

(** The [try] block of [process_human_query]. *)
Definition process_human_query_body (start_time : Q) (human_query : str) : M dict :=
  _verify_services_configured ;;
  let database_schema := DATABASE_SCHEMA E in
  sql_result <- GeminiService.human_query_to_sql E human_query database_schema ;;
  if negb (validate_query_safety (sql_query sql_result))
  then
    _create_error_response
      (lit "SQL query not allowed for security reasons")
      (Some (lit "Only SELECT queries are allowed"))
  else
    query_result <- DatabaseService.execute_query E (sql_query sql_result) ;;
    natural_answer <- GeminiService.build_answer E query_result human_query ;;
    now <- time_time E ;;
    let execution_time := now - start_time in
    ret (HumanQueryResponse_dict natural_answer (sql_query sql_result) execution_time).

Definition process_human_query (human_query : str) : M dict :=
  start_time <- time_time E ;;
  try_except
    (process_human_query_body start_time human_query)
    (fun e =>
       if is_ValueError e then
         _create_error_response
           (lit "Service not configured correctly")
           (Some (lit "Verify your Supabase and Gemini configuration in the .env file"))
       else if is_ConnectionError e then
         _create_error_response
           (lit "Connection error with services")
           (Some (lit "Verify your internet connectivity and credentials"))
       else
         _create_error_response
           (lit "Error processing query: " ++ exn_str e) None).

Definition _get_status_message (status : str) (database_health llm_health : bool) : str :=
  if str_eqb status (lit "healthy") then
    lit "All services are working correctly"
  else if str_eqb status (lit "degraded") then
    let problems :=
      (if negb database_health then [lit "Supabase"] else [])
      ++ (if negb llm_health then [lit "Gemini"] else []) in
    lit "Problems with: " ++ join (lit ", ") problems
  else if str_eqb status (lit "unhealthy") then
    lit "Critical services unavailable - check your configuration"
  else
    lit "Unknown system status".

Definition get_health_status : M dict :=
  try_except
    (database_health <- DatabaseService.health_check E ;;
     llm_health <- GeminiService.health_check E ;;
     let overall_status :=
       if database_health && llm_health then lit "healthy" else lit "degraded" in
     let overall_status :=
       if negb database_health && negb llm_health then lit "unhealthy"
       else overall_status in
     let message := _get_status_message overall_status database_health llm_health in
     ret [ (lit "status", VStr overall_status);
           (lit "services",
            VDict [ (lit "database", VBool database_health);
                    (lit "llm", VBool llm_health) ]);
           (lit "message", VStr message) ])
    (fun e =>
       ret [ (lit "status", VStr (lit "error"));
             (lit "services",
              VDict [ (lit "database", VBool false);
                      (lit "llm", VBool false) ]);
             (lit "message", VStr (lit "Error checking status: " ++ exn_str e)) ]).

End WithEnv.
End QueryProcessor.

(* ================================================================== *)
(** * [app/routes/queries.py] *)
(* ================================================================== *)

Module Routes.

(** What the handler of [POST /api/v1/query] raises: an [HTTPException]
    with its status code and detail, or any other exception. *)
Inductive route_exn :=
| HTTPException (status_code : Z) (detail : pyval)
| Unhandled (e : exn).

Section WithEnv.
Variable E : Env.

(** The [try] block of the handler; [human_query] is the field of the
    validated request body. *)
Definition process_human_query_body (human_query : str)
  : trace -> (route_exn + dict) * trace :=
  fun h =>
    if is_empty (strip human_query)
    then (inl (HTTPException 400 (VStr (lit "Query cannot be empty"))), h)
    else
      match QueryProcessor.process_human_query E human_query h with
      | (inl e, h') => (inl (Unhandled e), h')
      | (inr result, h') =>
          if Dict.mem (lit "error") result
          then (inl (HTTPException 400
                       (Dict.get_default result (lit "error") VNone)), h')
          else (inr result, h')
      end.

(** The handler: an [HTTPException] goes through, anything else becomes
    the 500 response. *)
Definition process_human_query (human_query : str)
  : trace -> (route_exn + dict) * trace :=
  fun h =>
    match process_human_query_body human_query h with
    | (inl (HTTPException code detail), h') => (inl (HTTPException code detail), h')
    | (inl (Unhandled _), h') =>
        (inl (HTTPException 500 (VStr (lit "Internal server error"))), h')
    | (inr result, h') => (inr result, h')
    end.

(** [d[key]] *)
Definition subscript (d : dict) (key : str) : exn + pyval :=
  match Dict.get d key with
  | Some v => inr v
  | None => inl (Exception (lit "'" ++ key ++ lit "'"))
  end.

(** [HealthResponse(status=.., message=.., timestamp=.., services=..).dict()]
    for the values the handler passes: strings, and a dictionary of
    booleans (the coercions of other inputs are not reproduced). *)
Definition HealthResponse_dict (status message : pyval) (timestamp : Q)
    (services : pyval) : exn + dict :=
  match status, message, services with
  | VStr _, VStr _, VDict d =>
      if forallb (fun kv => match snd kv with VBool _ => true | _ => false end) d
      then inr [ (lit "status", status);
                 (lit "message", message);
                 (lit "timestamp", VDatetime timestamp);
                 (lit "services", services) ]
      else inl (ValidationError (lit "validation error for HealthResponse"))
  | _, _, _ => inl (ValidationError (lit "validation error for HealthResponse"))
  end.

(** The exception [json.dumps(content, allow_nan=False)] raises, if any:
    that of the first value, in the order of writing, that it cannot
    write, a datetime or a float that is not finite. *)
Fixpoint dumps_error (v : pyval) : option exn :=
  match v with
  | VDatetime _ =>
      Some (Exception (lit "Object of type datetime is not JSON serializable"))
  | VFloat (Finite _) => None
  | VFloat _ =>
      Some (ValueError (lit "Out of range float values are not JSON compliant"))
  | VList l =>
      (fix items (l : list pyval) : option exn :=
         match l with
         | [] => None
         | x :: l' =>
             match dumps_error x with
             | Some e => Some e
             | None => items l'
             end
         end) l
  | VDict d =>
      (fix members (d : list (str * pyval)) : option exn :=
         match d with
         | [] => None
         | (_, x) :: d' =>
             match dumps_error x with
             | Some e => Some e
             | None => members d'
             end
         end) d
  | _ => None
  end.

(** [JSONResponse(status_code=.., content=..)]: the body is rendered with
    [json.dumps] when the response is built, which raises on a content it
    cannot write. *)
Definition JSONResponse (status_code : Z) (content : dict) : exn + Z * dict :=
  match dumps_error (VDict content) with
  | Some e => inl e
  | None => inr (status_code, content)
  end.

(** The handler of [GET /api/v1/health]. *)
Definition health_check : M (Z * dict) :=
  try_except
    (health_status <- QueryProcessor.get_health_status E ;;
     status <- lift (subscript health_status (lit "status")) ;;
     message <- lift (subscript health_status (lit "message")) ;;
     now <- datetime_now E ;;
     services <- lift (subscript health_status (lit "services")) ;;
     response <- lift (HealthResponse_dict status message now services) ;;
     status' <- lift (subscript health_status (lit "status")) ;;
     let status_code :=
       match status' with
       | VStr s => if str_eqb s (lit "healthy") then 200%Z else 503%Z
       | _ => 503%Z
       end in
     lift (JSONResponse status_code response))
    (fun e =>
       now <- datetime_now E ;;
       error_response <-
         lift (HealthResponse_dict
                 (VStr (lit "error"))
                 (VStr (lit "Error checking status: " ++ exn_str e))
                 now
                 (VDict [ (lit "database", VBool false); (lit "llm", VBool false) ])) ;;
       lift (JSONResponse 503 error_response)).

End WithEnv.
End Routes.

(* ================================================================== *)
(** * Test doubles

    Deterministic collaborators for closed runs: a model that answers from
    a script, a client that returns fixed rows, a clock that advances by
    one second per event. *)
(* ================================================================== *)

Module Stub.

Definition is_generate (ev : event) : bool :=
  match ev with EvGenerate _ => true | _ => false end.

(** The n-th call of [generate_content] gets the n-th scripted answer. *)
Definition scripted_model (answers : list (exn + str)) : GenerativeModel :=
  {| generate_content := fun h _ =>
       nth (length (filter is_generate h)) answers
           (inl (Exception (lit "no scripted answer left"))) |}.

Definition fixed_client (data : exn + option (list pyval)) : Client :=
  {| rpc_execute_dynamic_query := fun _ _ => data;
     table_users_select_id := fun _ => inr tt |}.

Definition tick_clock (h : trace) : Q := inject_Z (Z.of_nat (length h)).

(** A stand-in for the serialiser: strings and the constants are written
    out, other scalars by a placeholder. *)
Definition dumps_scalar (v : pyval) : str :=
  match v with
  | VNone => lit "null"
  | VBool true => lit "true"
  | VBool false => lit "false"
  | VStr s => dq ++ s ++ dq
  | _ => lit "<value>"
  end.

Definition dumps_row (v : pyval) : str :=
  match v with
  | VDict d =>
      lit "{" ++ join (lit ", ")
                   (map (fun kv => dq ++ fst kv ++ dq ++ lit ": " ++ dumps_scalar (snd kv)) d)
      ++ lit "}"
  | _ => dumps_scalar v
  end.

Definition dumps_rows (rows : list pyval) : str :=
  lit "[" ++ join (lit ", ") (map dumps_row rows) ++ lit "]".

(** A stand-in for the coercion to [float]: a string that reads as a JSON
    number is accepted, a [bool] is not. *)
Definition number_of_str (v : pyval) : option pyfloat :=
  match v with
  | VStr s =>
      match Json.match_number s with
      | Some (VInt z, []) => Some (Finite (inject_Z z))
      | Some (VFloat f, []) => Some f
      | _ => None
      end
  | _ => None
  end.

Definition env (answers : list (exn + str)) (data : exn + option (list pyval)) : Env :=
  {| supabase := Some (fixed_client data);
     model := Some (scripted_model answers);
     clock := tick_clock;
     lower := ascii_lower;
     json_dumps := dumps_rows;
     lax_float := number_of_str;
     DATABASE_SCHEMA := lit "CREATE TABLE public.users (id UUID PRIMARY KEY, name TEXT NOT NULL);" |}.

(** A wall clock that is set back after its first reading: 1000 seconds
    on the empty trace, 993 seconds afterwards. *)
Definition clock_set_back (h : trace) : Q :=
  match h with
  | [] => 1000
  | _ :: _ => 993
  end.

Definition env_clock_set_back (answers : list (exn + str))
    (data : exn + option (list pyval)) : Env :=
  {| supabase := Some (fixed_client data);
     model := Some (scripted_model answers);
     clock := clock_set_back;
     lower := ascii_lower;
     json_dumps := dumps_rows;
     lax_float := number_of_str;
     DATABASE_SCHEMA := lit "CREATE TABLE public.users (id UUID PRIMARY KEY, name TEXT NOT NULL);" |}.

(** An environment in which neither client was initialised. *)
Definition unconfigured : Env :=
  {| supabase := None;
     model := None;
     clock := tick_clock;
     lower := ascii_lower;
     json_dumps := dumps_rows;
     lax_float := number_of_str;
     DATABASE_SCHEMA := [] |}.

Definition user_row (name : string) : pyval :=
  VDict [ (lit "name", VStr (lit name)) ].

Definition three_users : list pyval :=
  [ user_row "Ana"; user_row "Luis"; user_row "Eva" ].

(** Model answers used in the runs below. *)
Definition fenced_select_users : str :=
  lit "Sure! ```json
{" ++ quoted "sql_query" ++ lit ":" ++ quoted "SELECT * FROM users" ++ lit "}
```".

Definition drop_table_users : str :=
  lit "{" ++ quoted "sql_query" ++ lit ": " ++ quoted "DROP TABLE users" ++ lit "}".


Definition no_envelope : str := lit "I cannot answer that question.".

End Stub.

(* ================================================================== *)
(** * The vocabulary of the specification *)
(* ================================================================== *)

(** The spec's reading of the gate: the cleaned text begins with the word
    and holds no denylisted keyword anywhere. *)
Definition begins_with (word text : str) : Prop := exists rest, text = word ++ rest.
Definition occurs_in (word text : str) : Prop :=
  exists before after, text = before ++ word ++ after.

Definition denylist : list str :=
  [ lit "drop"; lit "delete"; lit "insert"; lit "update"; lit "alter";
    lit "create"; lit "truncate"; lit "grant"; lit "revoke"; lit "exec";
    lit "execute" ].

Definition gate_accepts (E : Env) (s : str) : Prop :=
  let normalized := lower E (strip s) in
  begins_with (lit "select") normalized /\
  forall keyword, In keyword denylist -> ~ occurs_in keyword normalized.

(** Calls of the query executor recorded in a trace. *)
Definition is_executor_event (ev : event) : bool :=
  match ev with
  | EvExecuteQuery _ | EvRpc _ => true
  | _ => false
  end.

Definition executor_calls (h : trace) : nat := length (filter is_executor_event h).

(** A run of the pipeline from trace [h] goes through every stage: the
    services are configured, the translation yields a candidate, the gate
    accepts it, the executor returns rows and the composer an answer. *)
Definition pipeline_succeeds (E : Env) (human_query : str) (h : trace) : Prop :=
  exists cand h1 rows h2 answer h3,
    QueryProcessor._verify_services_configured E (h ++ [EvTime]) = (inr tt, h ++ [EvTime]) /\
    GeminiService.human_query_to_sql E human_query (DATABASE_SCHEMA E) (h ++ [EvTime])
      = (inr cand, h1) /\
    QueryProcessor.validate_query_safety E (sql_query cand) = true /\
    DatabaseService.execute_query E (sql_query cand) h1 = (inr rows, h2) /\
    GeminiService.build_answer E rows human_query h2 = (inr answer, h3).

(** A run reaches the gate and the gate rejects the candidate. *)
Definition security_rejected (E : Env) (human_query : str) (h : trace) : Prop :=
  exists cand h1,
    QueryProcessor._verify_services_configured E (h ++ [EvTime]) = (inr tt, h ++ [EvTime]) /\
    GeminiService.human_query_to_sql E human_query (DATABASE_SCHEMA E) (h ++ [EvTime])
      = (inr cand, h1) /\
    QueryProcessor.validate_query_safety E (sql_query cand) = false.

(** The two shapes of a pipeline outcome. *)
Definition success_keys : list str :=
  [ lit "answer"; lit "sql_query"; lit "execution_time" ].
Definition error_keys : list str :=
  [ lit "error"; lit "details"; lit "timestamp" ].

(** The outcome of a security rejection, stamped at time [t]. *)
Definition security_rejection (t : Q) : dict :=
  [ (lit "error", VStr (lit "SQL query not allowed for security reasons"));
    (lit "details", VStr (lit "Only SELECT queries are allowed"));
    (lit "timestamp", VDatetime t) ].

(** Status codes of the two families of error responses. *)
Definition client_error (code : Z) : Prop := (400 <= code < 500)%Z.
Definition server_fault (code : Z) : Prop := (500 <= code < 600)%Z.

(** The error mapping of the query endpoint as the specification words it:
    an error response is a client error for an empty query and for a
    security rejection, and a server fault for every other failure. *)
Definition only_rejections_are_client_errors (E : Env) (human_query : str)
    (h : trace) : Prop :=
  forall code detail h',
    Routes.process_human_query E human_query h
      = (inl (Routes.HTTPException code detail), h') ->
    (is_empty (strip human_query) = true \/ security_rejected E human_query h ->
     client_error code) /\
    (~ (is_empty (strip human_query) = true \/ security_rejected E human_query h) ->
     server_fault code).

(** What the scanner owes on a text [s]: it does not run out of fuel, and
    what it leaves is shorter than what it was given. *)
Definition scan_progress (s : str) (r : Json.scan pyval) : Prop :=
  match r with
  | Json.Scanned _ rest => (length rest < length s)%nat
  | Json.Fail _ => True
  | Json.Fuel => False
  end.

(** The envelope of a model response as the specification describes it:
    the text from the first opening brace to the last closing brace,
    without code-fence markers, stripped. *)
Definition envelope_payload (text : str) : str :=
  let inner := slice text (find text (lit "{")) (rfind text (lit "}") + 1)%Z in
  strip (replace (replace inner (lit "```json") []) (lit "```") []).

Definition no_brace_pair (text : str) : Prop :=
  find text (lit "{") = (-1)%Z \/ rfind text (lit "}") = (-1)%Z.



(** The fields of the candidate as the translator reads them from the
    parsed object [d], with the defaults for the two optional ones. *)
Definition candidate_of (E : Env) (human_query : str) (d : dict) : exn + SQLQueryResult :=
  SQLQueryResult_init E
    (Dict.get_default d (lit "sql_query") (VStr []))
    (Dict.get_default d (lit "original_query") (VStr human_query))
    (Dict.get_default d (lit "confidence") (VFloat (Finite (1 # 2)))).




(** The events a run of the pipeline on [human_query] may add to the
    trace, stage by stage: the clock, the call for the translation, the
    executor on an SQL text [sql], the call for the answer, and the clock
    again or the stamp of the error. *)
Definition run_events (E : Env) (human_query : str) (new : trace) : Prop :=
  let p1 := GeminiService.sql_prompt human_query (DATABASE_SCHEMA E) in
  new = [EvTime; EvNow] \/
  new = [EvTime; EvGenerate p1; EvNow] \/
  exists sql,
    QueryProcessor.validate_query_safety E sql = true /\
    (new = [EvTime; EvGenerate p1; EvExecuteQuery sql; EvRpc sql; EvNow] \/
     exists p2,
       new = [EvTime; EvGenerate p1; EvExecuteQuery sql; EvRpc sql;
              EvGenerate p2; EvNow] \/
       new = [EvTime; EvGenerate p1; EvExecuteQuery sql; EvRpc sql;
              EvGenerate p2; EvTime]).

(** An error outcome of the pipeline, stamped at time [t]. *)
Definition error_outcome (error : str) (details : option str) (t : Q) : dict :=
  [ (lit "error", VStr error);
    (lit "details", match details with Some d => VStr d | None => VNone end);
    (lit "timestamp", VDatetime t) ].

(** The prefixes the stages put before the message of a failure. *)
Definition format_prefix : str := lit "Error in Gemini response format: ".
Definition translation_prefix : str := lit "Error processing query with Gemini: ".
Definition execution_prefix : str := lit "Error executing query: ".
Definition composition_prefix : str := lit "Error generating natural response: ".
Definition pipeline_prefix : str := lit "Error processing query: ".

Definition is_generate_event (ev : event) : bool :=
  match ev with EvGenerate _ => true | _ => false end.

Definition is_rpc_event (ev : event) : bool :=
  match ev with EvRpc _ => true | _ => false end.

Definition all_space (s : str) : Prop := Forall (fun c => isspace c = true) s.

(** The prompt of the composer as the template lays it out: after the
    instructions, the question under its label, the data under theirs,
    and the closing line. *)
Definition question_label : str := lit "ORIGINAL QUESTION: ".

Definition data_label : str := lit "

DATABASE DATA:
".

Definition closing_line : str := lit "

Generate a natural and helpful response based on this data:
            ".

(** The execution time as the specification words it: the outcome of a
    run that goes through every stage carries an execution time that is
    not negative. *)
Definition execution_time_not_negative (E : Env) (human_query : str)
    (h : trace) : Prop :=
  pipeline_succeeds E human_query h ->
  forall d h',
    QueryProcessor.process_human_query E human_query h = (inr d, h') ->
    exists t, Dict.get d (lit "execution_time") = Some (VFloat (Finite t)) /\ 0 <= t.

(* ================================================================== *)
(** * Properties of the string operations *)
(* ================================================================== *)

Arguments lit : simpl never.

Section StringFacts.

Lemma startswith_spec (s p : str) :
  startswith s p = true <-> exists t, s = p ++ t.
Proof.
  revert s. induction p as [|c p IH]; intros s; simpl.
  - split; [intros _; exists s; reflexivity | reflexivity].
  - destruct s as [|d s].
    + split; [discriminate | intros [t Ht]; discriminate].
    + rewrite andb_true_iff, N.eqb_eq, IH. split.
      * intros [-> [t ->]]. exists t. reflexivity.
      * intros [t Ht]. injection Ht as -> ->. split; [reflexivity | exists t; reflexivity].
Qed.

Lemma contains_spec (sub s : str) :
  contains sub s = true <-> exists a b, s = a ++ sub ++ b.
Proof.
  induction s as [|c s IH]; simpl.
  - rewrite orb_false_r, startswith_spec. split.
    + intros [t Ht]. exists [], t. exact Ht.
    + intros [a [b H]]. symmetry in H.
      apply app_eq_nil in H as [-> H]. apply app_eq_nil in H as [-> ->].
      exists []. reflexivity.
  - rewrite orb_true_iff, startswith_spec, IH. split.
    + intros [[t Ht] | [a [b H]]].
      * exists [], t. exact Ht.
      * exists (c :: a), b. rewrite H. reflexivity.
    + intros [[|d a] [b H]].
      * left. exists b. exact H.
      * right. injection H as _ H. exists a, b. exact H.
Qed.

Lemma contains_false (sub s : str) :
  contains sub s = false <-> ~ exists a b, s = a ++ sub ++ b.
Proof.
  rewrite <- contains_spec. destruct (contains sub s); split; intros H.
  - discriminate.
  - exfalso. apply H. reflexivity.
  - intros Hc. discriminate.
  - reflexivity.
Qed.

Lemma contains_app (sub a b : str) :
  contains sub (a ++ sub ++ b) = true.
Proof. apply contains_spec. exists a, b. reflexivity. Qed.

Lemma first_dangerous_None (ops : list str) (s : str) :
  QueryProcessor.first_dangerous ops s = None <->
  forall op, In op ops -> contains op s = false.
Proof.
  induction ops as [|o ops IH]; simpl.
  - split; [intros _ op [] | reflexivity].
  - destruct (contains o s) eqn:Ho.
    + split; [discriminate |].
      intros H. rewrite (H o (or_introl eq_refl)) in Ho. discriminate.
    + rewrite IH. split.
      * intros H op [<- | Hin]; [exact Ho | apply H, Hin].
      * intros H op Hin. apply H. right. exact Hin.
Qed.

End StringFacts.

(* ================================================================== *)
(** * Properties of the envelope extraction *)
(* ================================================================== *)

Section EnvelopeFacts.
Local Open Scope nat_scope.

Lemma find_from_spec (sub s : str) (i r : Z) :
  find_from sub s i = r ->
  r = (-1)%Z \/
  ((i <= r)%Z /\ startswith (skipn (Z.to_nat (r - i)) s) sub = true).
Proof.
  revert i. induction s as [|c s IH]; intros i; cbn [find_from].
  - destruct (startswith [] sub) eqn:Hs; intros <-; [right | left; reflexivity].
    split; [lia |]. rewrite Z.sub_diag. exact Hs.
  - destruct (startswith (c :: s) sub) eqn:Hs.
    + intros <-. right. split; [lia |]. rewrite Z.sub_diag. exact Hs.
    + intros H. destruct (IH _ H) as [-> | [Hle Hst]]; [left; reflexivity | right].
      split; [lia |].
      replace (Z.to_nat (r - i)) with (S (Z.to_nat (r - (i + 1)))) by lia.
      exact Hst.
Qed.

Lemma slice_head (s : str) (a b : Z) (c : char) (t : str) :
  (0 <= a)%Z ->
  skipn (Z.to_nat a) s = c :: t ->
  slice s a b = [] \/ exists t', slice s a b = c :: t'.
Proof.
  intros Ha Hsk. unfold slice.
  assert (Hlen : (a < Z.of_nat (length s))%Z).
  { destruct (Z.ltb_spec a (Z.of_nat (length s))) as [H | H]; [exact H |].
    rewrite skipn_all2 in Hsk by lia. discriminate. }
  assert (Hidx : slice_index (Z.of_nat (length s)) a = a).
  { unfold slice_index. destruct (Z.ltb_spec a 0); lia. }
  rewrite Hidx, Hsk.
  destruct (Z.to_nat (slice_index (Z.of_nat (length s)) b - a)) as [|n].
  - left. reflexivity.
  - right. eexists. reflexivity.
Qed.

Lemma replace_head (c o : char) (t old new : str) :
  N.eqb c o = false ->
  replace (c :: t) (o :: old) new = c :: replace_aux (o :: old) new 0 t.
Proof.
  intros H. unfold replace. cbn [replace_aux startswith]. rewrite H. reflexivity.
Qed.

Lemma lstrip_snoc (s : str) (c : char) :
  isspace c = false -> lstrip (s ++ [c]) = lstrip s ++ [c].
Proof.
  intros Hc. induction s as [|d s IH]; cbn [lstrip app].
  - rewrite Hc. reflexivity.
  - destruct (isspace d); [exact IH | reflexivity].
Qed.

Lemma strip_head (c : char) (t : str) :
  isspace c = false -> exists t', strip (c :: t) = c :: t'.
Proof.
  intros Hc. unfold strip, rstrip. cbn [lstrip]. rewrite Hc.
  cbn [rev]. rewrite lstrip_snoc by exact Hc.
  rewrite rev_app_distr. cbn. eexists. reflexivity.
Qed.

End EnvelopeFacts.

(* ================================================================== *)
(** * Properties of the decoder *)
(* ================================================================== *)

Section DecoderFacts.
Local Open Scope nat_scope.

Lemma skip_ws_length (s : str) : length (Json.skip_ws s) <= length s.
Proof.
  induction s as [|c s IH]; cbn [Json.skip_ws]; [lia |].
  destruct (Json.is_ws c); cbn [length]; lia.
Qed.

Lemma skip_ws_cons_length (s : str) c r :
  Json.skip_ws s = c :: r -> length r < length s.
Proof.
  intros H. pose proof (skip_ws_length s) as Hl. rewrite H in Hl. cbn in Hl. lia.
Qed.

Ltac split_matches H :=
  repeat match type of H with
         | context [match ?y with _ => _ end] => destruct y eqn:?; try discriminate
         | context [let (_, _) := ?y in _] => destruct y eqn:?; try discriminate
         end.

Lemma scanstring_length (n : nat) :
  forall s acc x r, length s <= n ->
    Json.scanstring acc s = inr (x, r) -> length r < length s.
Proof.
  induction n as [|n IH]; intros s acc x r Hn H.
  - destruct s; [discriminate | cbn in Hn; lia].
  - destruct s as [|c t]; [discriminate |].
    cbn [Json.scanstring] in H. cbn [length] in *.
    split_matches H;
      try (injection H as _ <-; lia);
      try (apply IH in H; cbn [length] in *; lia).
Qed.

Lemma span_digits_rest (s ds r : str) :
  Json.span_digits s = (ds, r) -> length r + length ds = length s.
Proof.
  revert ds r. induction s as [|c s IH]; intros ds r; cbn [Json.span_digits].
  - intros H. injection H as <- <-. reflexivity.
  - destruct (Json.is_digit c).
    + destruct (Json.span_digits s) as [ds' r'].
      intros H. injection H as <- <-. specialize (IH _ _ eq_refl).
      cbn [length]. lia.
    + intros H. injection H as <- <-. cbn [length]. lia.
Qed.

Ltac clean_pairs :=
  repeat match goal with
         | E : (_, _) = (_, _) |- _ => injection E as ? ?; subst
         | E : Some _ = Some _ |- _ => injection E as ?; subst
         | E : Json.span_digits _ = (_, _) |- _ => apply span_digits_rest in E
         end.

Lemma number_sign_length (s : str) b r :
  Json.number_sign s = (b, r) -> length r <= length s.
Proof.
  unfold Json.number_sign. intros H. split_matches H; clean_pairs; cbn [length]; lia.
Qed.

Lemma number_int_length (s : str) i r :
  Json.number_int s = Some (i, r) -> length r < length s.
Proof.
  unfold Json.number_int. intros H. destruct s as [|c t]; [discriminate |].
  destruct (c =? 48)%N.
  - injection H as _ <-. cbn [length]. lia.
  - destruct (Json.is_digit c) eqn:Hd; [| discriminate].
    injection H as H. cbn [Json.span_digits] in H. rewrite Hd in H.
    destruct (Json.span_digits t) as [ds r'] eqn:Ht.
    injection H as _ <-. apply span_digits_rest in Ht. cbn [length]. lia.
Qed.

Lemma number_frac_length (s : str) f r :
  Json.number_frac s = (f, r) -> length r <= length s.
Proof.
  unfold Json.number_frac. intros H.
  split_matches H; clean_pairs; cbn [length] in *; lia.
Qed.

Lemma exponent_sign_length (s : str) b r :
  Json.exponent_sign s = (b, r) -> length r <= length s.
Proof.
  unfold Json.exponent_sign. intros H.
  split_matches H; clean_pairs; cbn [length] in *; lia.
Qed.

Lemma number_exp_length (s : str) e r :
  Json.number_exp s = (e, r) -> length r <= length s.
Proof.
  unfold Json.number_exp. intros H.
  split_matches H; clean_pairs;
    repeat match goal with
           | E : Json.exponent_sign _ = _ |- _ => apply exponent_sign_length in E
           end; cbn [length] in *; lia.
Qed.

Lemma match_number_length (s : str) v r :
  Json.match_number s = Some (v, r) -> length r < length s.
Proof.
  unfold Json.match_number. intros H.
  destruct (Json.number_sign s) as [neg s1] eqn:H1.
  destruct (Json.number_int s1) as [[i s2]|] eqn:H2; [| discriminate].
  destruct (Json.number_frac s2) as [f s3] eqn:H3.
  destruct (Json.number_exp s3) as [e s4] eqn:H4.
  apply number_sign_length in H1. apply number_int_length in H2.
  apply number_frac_length in H3. apply number_exp_length in H4.
  destruct f, e; injection H as _ <-; lia.
Qed.

Lemma skipn_shorter (n : nat) (s : str) :
  0 < n -> s <> [] -> length (skipn n s) < length s.
Proof.
  intros Hn Hs. rewrite length_skipn. destruct s; [contradiction | cbn [length]; lia].
Qed.

Lemma scan_fuel (fuel : nat) :
  (forall s, 2 * length s < fuel -> scan_progress s (Json.scan_once fuel s)) /\
  (forall acc s, 2 * length s + 1 < fuel ->
     scan_progress s (Json.object_loop fuel acc s)) /\
  (forall acc s, 2 * length s + 1 < fuel ->
     scan_progress s (Json.array_loop fuel acc s)).
Proof.
  induction fuel as [|f [IHs [IHo IHa]]].
  - repeat split; intros; lia.
  - split; [| split].
    + intros s Hf. cbn [Json.scan_once].
      destruct s as [|c t]; [exact I |]. cbn [length] in Hf.
      destruct (c =? 34)%N.
      { destruct (Json.scanstring [] t) as [m | [x r]] eqn:Hx; [exact I |].
        apply (scanstring_length (n := length t)) in Hx; [| lia].
        cbn [scan_progress length]. lia. }
      destruct (c =? 123)%N.
      { destruct (Json.skip_ws t) as [|c1 r] eqn:Hw; [exact I |].
        pose proof (skip_ws_cons_length _ Hw) as Hl.
        destruct (c1 =? 125)%N; [cbn [scan_progress length]; lia |].
        specialize (IHo [] (c1 :: r)). cbn [length] in IHo.
        destruct (Json.object_loop f [] (c1 :: r)); cbn [scan_progress length] in *;
          try (apply IHo; lia); try exact I.
        assert (length rest < S (length r)) by (apply IHo; lia). lia. }
      destruct (c =? 91)%N.
      { destruct (Json.skip_ws t) as [|c1 r] eqn:Hw; [exact I |].
        pose proof (skip_ws_cons_length _ Hw) as Hl.
        destruct (c1 =? 93)%N; [cbn [scan_progress length]; lia |].
        specialize (IHa [] (c1 :: r)). cbn [length] in IHa.
        destruct (Json.array_loop f [] (c1 :: r)); cbn [scan_progress length] in *;
          try (apply IHa; lia); try exact I.
        assert (length rest < S (length r)) by (apply IHa; lia). lia. }
      repeat match goal with
             | |- context [if startswith ?a ?b then _ else _] =>
                 destruct (startswith a b);
                   [cbn [scan_progress]; apply skipn_shorter; [lia | discriminate] |]
             end.
      destruct (Json.match_number (c :: t)) as [[v r]|] eqn:Hn; [| exact I].
      apply match_number_length in Hn. exact Hn.
    + intros acc s Hf. cbn [Json.object_loop].
      destruct s as [|c t]; [exact I |]. cbn [length] in Hf.
      destruct (negb (c =? 34)%N); [exact I |].
      destruct (Json.scanstring [] t) as [m | [key r]] eqn:Hx; [exact I |].
      apply (scanstring_length (n := length t)) in Hx; [| lia].
      destruct (Json.skip_ws r) as [|c2 r2] eqn:Hw; [exact I |].
      apply skip_ws_cons_length in Hw.
      destruct (negb (c2 =? 58)%N); [exact I |].
      pose proof (skip_ws_length r2) as Hw2.
      specialize (IHs (Json.skip_ws r2)).
      destruct (Json.scan_once f (Json.skip_ws r2)) as [v r3 | m |];
        cbn [scan_progress] in IHs; [| exact I | apply IHs; lia].
      assert (Hr3 : length r3 < length (Json.skip_ws r2)) by (apply IHs; lia).
      destruct (Json.skip_ws r3) as [|c3 r4] eqn:Hw3; [exact I |].
      apply skip_ws_cons_length in Hw3.
      destruct (c3 =? 125)%N; [cbn [scan_progress length]; lia |].
      destruct (c3 =? 44)%N; [| exact I].
      pose proof (skip_ws_length r4) as Hw4.
      specialize (IHo (Dict.setitem acc key v) (Json.skip_ws r4)).
      destruct (Json.object_loop f (Dict.setitem acc key v) (Json.skip_ws r4));
        cbn [scan_progress length] in *; [| exact I | apply IHo; lia].
      assert (length rest < length (Json.skip_ws r4)) by (apply IHo; lia). lia.
    + intros acc s Hf. cbn [Json.array_loop].
      specialize (IHs s).
      destruct (Json.scan_once f s) as [v r | m |];
        cbn [scan_progress] in IHs; [| exact I | apply IHs; lia].
      assert (Hr : length r < length s) by (apply IHs; lia).
      destruct (Json.skip_ws r) as [|c r1] eqn:Hw; [exact I |].
      apply skip_ws_cons_length in Hw.
      destruct (c =? 93)%N; [cbn [scan_progress]; lia |].
      destruct (c =? 44)%N; [| exact I].
      pose proof (skip_ws_length r1) as Hw1.
      specialize (IHa (v :: acc) (Json.skip_ws r1)).
      destruct (Json.array_loop f (v :: acc) (Json.skip_ws r1));
        cbn [scan_progress] in *; [| exact I | apply IHa; lia].
      assert (length rest < length (Json.skip_ws r1)) by (apply IHa; lia). lia.
Qed.

Lemma loads_fuel_suffices (s : str) :
  Json.scan_once (2 * length s + 1) s <> Json.Fuel.
Proof.
  intros H. pose proof (proj1 (scan_fuel (2 * length s + 1)) s) as Hp.
  rewrite H in Hp. apply Hp. lia.
Qed.

Lemma object_loop_dict (fuel : nat) :
  forall acc s v r, Json.object_loop fuel acc s = Json.Scanned v r ->
                    exists d, v = VDict d.
Proof.
  induction fuel as [|f IH]; intros acc s v r; cbn [Json.object_loop];
    [discriminate |].
  destruct s as [|c t]; [discriminate |].
  destruct (negb (c =? 34)%N); [discriminate |].
  destruct (Json.scanstring [] t) as [m | [key r1]]; [discriminate |].
  destruct (Json.skip_ws r1) as [|c2 r2]; [discriminate |].
  destruct (negb (c2 =? 58)%N); [discriminate |].
  destruct (Json.scan_once f (Json.skip_ws r2)) as [x r3 | |]; try discriminate.
  destruct (Json.skip_ws r3) as [|c3 r4]; [discriminate |].
  destruct (c3 =? 125)%N.
  - intros H. injection H as <- _. eexists. reflexivity.
  - destruct (c3 =? 44)%N; [apply IH | discriminate].
Qed.

Lemma loads_object (t : str) (v : pyval) :
  Json.loads (123%N :: t) = inr v -> exists d, v = VDict d.
Proof.
  unfold Json.loads.
  change (startswith (123%N :: t) [65279%N]) with false. cbv iota.
  change (Json.skip_ws (123%N :: t)) with (123%N :: t).
  rewrite Nat.add_1_r. cbn [Json.scan_once].
  change (123 =? 34)%N with false. change (123 =? 123)%N with true. cbv iota.
  destruct (Json.skip_ws t) as [|c1 r] eqn:Hws.
  - discriminate.
  - destruct (c1 =? 125)%N.
    + destruct (Json.skip_ws r); [| discriminate].
      intros H. injection H as <-. eexists. reflexivity.
    + destruct (Json.object_loop _ [] (c1 :: r)) as [x r' | |] eqn:Hl; try discriminate.
      destruct (Json.skip_ws r'); [| discriminate].
      intros H. injection H as <-. exact (object_loop_dict _ _ _ Hl).
Qed.

End DecoderFacts.

(* ================================================================== *)
(** * The safety gate *)
(* ================================================================== *)

(** C1: the gate answers SAFE exactly when the trimmed, lowercased text
    begins with [select] and holds none of the eleven keywords as a
    substring, and UNSAFE in every other case; a keyword inside a longer
    word ([update] in a table called [updates]) therefore rejects. *)
Theorem validate_query_safety_iff (E : Env) (s : str) :
  (QueryProcessor.validate_query_safety E s = true <-> gate_accepts E s) /\
  (QueryProcessor.validate_query_safety E s = false <-> ~ gate_accepts E s) /\
  (forall keyword, In keyword denylist ->
     occurs_in keyword (lower E (strip s)) ->
     QueryProcessor.validate_query_safety E s = false).
Proof.
  assert (Hiff : QueryProcessor.validate_query_safety E s = true <-> gate_accepts E s).
  { unfold QueryProcessor.validate_query_safety, gate_accepts, begins_with, occurs_in.
    cbv zeta.
    destruct (QueryProcessor.first_dangerous QueryProcessor.dangerous_operations
                (lower E (strip s))) as [op|] eqn:Hd.
    - split; [discriminate |]. intros [_ Hno]. exfalso.
      destruct (first_dangerous_None QueryProcessor.dangerous_operations
                  (lower E (strip s))) as [_ Hback].
      rewrite Hback in Hd; [discriminate |].
      intros kw Hin. apply contains_false. apply Hno. exact Hin.
    - rewrite first_dangerous_None in Hd.
      destruct (startswith (lower E (strip s)) (lit "select")) eqn:Hs; cbn [negb].
      + split; [intros _ | reflexivity]. split.
        * apply startswith_spec. exact Hs.
        * intros kw Hin. apply contains_false. apply Hd. exact Hin.
      + split; [discriminate |]. intros [Hb _].
        apply startswith_spec in Hb. rewrite Hb in Hs. discriminate. }
  split; [exact Hiff |]. split.
  - rewrite <- Hiff. destruct (QueryProcessor.validate_query_safety E s); split; intros H.
    + discriminate.
    + exfalso. apply H. reflexivity.
    + intros Hc. discriminate.
    + reflexivity.
  - intros kw Hin Hocc.
    destruct (QueryProcessor.validate_query_safety E s) eqn:Hv; [| reflexivity].
    destruct (proj1 Hiff eq_refl) as [_ Hno]. exfalso. exact (Hno kw Hin Hocc).
Qed.

(** The over-rejections the specification asks to keep: a table called
    [updates], a column called [created_at]; and a plain query that
    passes. *)
Example gate_rejects_keyword_inside_word :
  let E := Stub.env [] (inr None) in
  QueryProcessor.validate_query_safety E (lit "select * from updates") = false /\
  QueryProcessor.validate_query_safety E (lit "SELECT created_at FROM products") = false /\
  QueryProcessor.validate_query_safety E (lit "DROP TABLE users") = false /\
  QueryProcessor.validate_query_safety E (lit "  SELECT name FROM users ") = true.
Proof. vm_compute. repeat split; reflexivity. Qed.

(* ================================================================== *)
(** * The services-configured check *)
(* ================================================================== *)

(** C9: the check made at the start of the pipeline raises its
    configuration error exactly when the database client or the model is
    unset, and the message names every unset dependency: both when both
    are missing. *)
Theorem verify_services_configured_aggregates (E : Env) (h : trace) :
  ((exists e h', QueryProcessor._verify_services_configured E h = (inl e, h')) <->
   (supabase E = None \/ model E = None)) /\
  (QueryProcessor._verify_services_configured E h = (inr tt, h) <->
   (supabase E <> None /\ model E <> None)) /\
  (forall e h', QueryProcessor._verify_services_configured E h = (inl e, h') ->
     h' = h /\
     e = ValueError (lit "Services not configured: " ++
                     join (lit ", ") (QueryProcessor.configuration_errors E)) /\
     (supabase E = None <-> occurs_in (lit "Supabase is not configured") (exn_str e)) /\
     (model E = None <-> occurs_in (lit "Gemini is not configured") (exn_str e))).
Proof.
  unfold QueryProcessor._verify_services_configured, QueryProcessor.configuration_errors.
  destruct (supabase E) as [c|], (model E) as [m|]; cbn [app]; unfold ret, raise.
  - split; [| split].
    + split; [intros [e [h' H]]; discriminate | intros [H | H]; discriminate].
    + split; [intros _; split; discriminate | reflexivity].
    + intros e h' H. discriminate.
  - split; [| split].
    + split; [intros _; right; reflexivity | intros _; eauto].
    + split; [discriminate | intros [_ H]; exfalso; apply H; reflexivity].
    + intros e h' H. injection H as <- <-. split; [reflexivity |].
      split; [reflexivity |]. split.
      * split; [discriminate |]. intros Hocc. exfalso.
        apply contains_spec in Hocc. vm_compute in Hocc. discriminate.
      * split; [intros _ | reflexivity].
        apply contains_spec. vm_compute. reflexivity.
  - split; [| split].
    + split; [intros _; left; reflexivity | intros _; eauto].
    + split; [discriminate | intros [H _]; exfalso; apply H; reflexivity].
    + intros e h' H. injection H as <- <-. split; [reflexivity |].
      split; [reflexivity |]. split.
      * split; [intros _ | reflexivity].
        apply contains_spec. vm_compute. reflexivity.
      * split; [discriminate |]. intros Hocc. exfalso.
        apply contains_spec in Hocc. vm_compute in Hocc. discriminate.
  - split; [| split].
    + split; [intros _; left; reflexivity | intros _; eauto].
    + split; [discriminate | intros [H _]; exfalso; apply H; reflexivity].
    + intros e h' H. injection H as <- <-. split; [reflexivity |].
      split; [reflexivity |]. split.
      * split; [intros _ | reflexivity].
        apply contains_spec. vm_compute. reflexivity.
      * split; [intros _ | reflexivity].
        apply contains_spec. vm_compute. reflexivity.
Qed.

(** Both dependencies missing: both are named, in one message. *)
Example verify_unconfigured_lists_both :
  QueryProcessor._verify_services_configured Stub.unconfigured [] =
  (inl (ValueError
          (lit "Services not configured: Supabase is not configured, Gemini is not configured")),
   []).
Proof. vm_compute. reflexivity. Qed.

(* ================================================================== *)
(** * The health report *)
(* ================================================================== *)

Lemma database_health_check_total (E : Env) (h : trace) :
  exists b h', DatabaseService.health_check E h = (inr b, h').
Proof.
  unfold DatabaseService.health_check.
  destruct (supabase E) as [c|]; [| eexists _, _; reflexivity].
  unfold try_except, bind, call, ret.
  destruct (table_users_select_id c h); eexists _, _; reflexivity.
Qed.

Lemma llm_health_check_total (E : Env) (h : trace) :
  exists b h', GeminiService.health_check E h = (inr b, h').
Proof.
  unfold GeminiService.health_check.
  destruct (model E) as [m|]; [| eexists _, _; reflexivity].
  unfold try_except, bind, call, ret.
  destruct (generate_content m h GeminiService.health_prompt); eexists _, _; reflexivity.
Qed.

(** C8: with [database_health] and [llm_health] the answers of the two
    health checks, the report says healthy exactly when both are true,
    unhealthy exactly when both are false, degraded exactly when they
    differ, and its services map holds the two answers unchanged. *)
Theorem get_health_status_spec (E : Env) (h : trace) :
  exists (database_health llm_health : bool) (h1 h2 : trace) (status message : str),
    DatabaseService.health_check E h = (inr database_health, h1) /\
    GeminiService.health_check E h1 = (inr llm_health, h2) /\
    QueryProcessor.get_health_status E h =
      (inr [ (lit "status", VStr status);
             (lit "services",
              VDict [ (lit "database", VBool database_health);
                      (lit "llm", VBool llm_health) ]);
             (lit "message", VStr message) ], h2) /\
    (status = lit "healthy" <-> database_health = true /\ llm_health = true) /\
    (status = lit "unhealthy" <-> database_health = false /\ llm_health = false) /\
    (status = lit "degraded" <-> database_health <> llm_health).
Proof.
  destruct (database_health_check_total E h) as [d [h1 Hd]].
  destruct (llm_health_check_total E h1) as [l [h2 Hl]].
  exists d, l, h1, h2.
  unfold QueryProcessor.get_health_status, try_except, bind.
  rewrite Hd, Hl. unfold ret.
  eexists _, _. split; [reflexivity |]. split; [reflexivity |].
  split; [reflexivity |].
  destruct d, l; cbn [andb negb];
    (split; [| split]); split; intros H;
    try (vm_compute in H; discriminate);
    try (destruct H; discriminate);
    try (exfalso; apply H; reflexivity);
    try reflexivity; try (split; reflexivity); try discriminate.
Qed.

(* ================================================================== *)
(** * The answer composer *)
(* ================================================================== *)

Lemma limited_result_firstn (rows : list pyval) :
  (if (10 <? length rows)%nat then firstn 10 rows else rows) = firstn 10 rows.
Proof.
  destruct (Nat.ltb_spec 10 (length rows)) as [Hlt | Hge]; [reflexivity |].
  symmetry. apply firstn_all2. exact Hge.
Qed.

Lemma firstn_min_length (n : nat) (rows : list pyval) :
  firstn (Nat.min n (length rows)) rows = firstn n rows.
Proof.
  destruct (Nat.le_ge_cases n (length rows)) as [Hle | Hge].
  - rewrite Nat.min_l by exact Hle. reflexivity.
  - rewrite Nat.min_r by exact Hge.
    rewrite firstn_all. symmetry. apply firstn_all2. exact Hge.
Qed.

(** C6: with the model initialised, the composer makes one call to the
    generation collaborator.  Its prompt is the instructions, the question
    under its label, then under the data label the serialisation of the
    first [min 10 (length rows)] rows in result order, then the closing
    line; the instructions are the same for every row list, so the rows
    reach the prompt through that serialisation only.  An answer of the
    composer is the stripped text the collaborator returned on that
    prompt, and two row lists with the same first ten rows give the same
    call and the same result. *)
Theorem build_answer_prompt_rows (E : Env) (m : GenerativeModel) :
  model E = Some m ->
  exists instructions : str,
    forall (human_query : str) (rows : list pyval) (h : trace),
      let shown := firstn (Nat.min 10 (length rows)) rows in
      let prompt := instructions ++ question_label ++ human_query ++ data_label
                    ++ json_dumps E shown ++ closing_line in
      snd (GeminiService.build_answer E rows human_query h) = h ++ [EvGenerate prompt] /\
      (forall answer,
         fst (GeminiService.build_answer E rows human_query h) = inr answer ->
         exists text, generate_content m h prompt = inr text /\ answer = strip text) /\
      length shown = Nat.min 10 (length rows) /\
      (forall rows', firstn 10 rows' = firstn 10 rows ->
         GeminiService.build_answer E rows' human_query h =
         GeminiService.build_answer E rows human_query h).
Proof.
  intros Hm.
  exists (lit "
You are an ecommerce assistant that generates natural language responses based on your ecommerce stock.

INSTRUCTIONS:
- Respond in English naturally and conversationally
- Be concise but informative
- If there's no data, explain it in a friendly way (No stock available)
- Include relevant information from the data (names, prices, quantities, etc.)
- Use a professional but approachable tone
- For products, mention names, prices, and availability when relevant
- For users, mention general information without sensitive data
- For orders, include totals and statuses
-DOES NOT use special formatting like *, **, etc.

").
  intros human_query rows h shown prompt.
  assert (Hprompt : GeminiService.answer_prompt human_query (json_dumps E (firstn 10 rows))
                    = prompt).
  { unfold prompt, shown. rewrite firstn_min_length.
    unfold GeminiService.answer_prompt. rewrite (app_assoc (lit _) question_label).
    f_equal. }
  split; [| split; [| split]].
  - unfold GeminiService.build_answer. rewrite Hm.
    rewrite limited_result_firstn, Hprompt.
    unfold try_except, bind, call, raise, ret.
    destruct (generate_content m h prompt) as [e | text]; [reflexivity |].
    destruct (is_empty text); reflexivity.
  - intros answer. unfold GeminiService.build_answer. rewrite Hm.
    rewrite limited_result_firstn, Hprompt.
    unfold try_except, bind, call, raise, ret.
    destruct (generate_content m h prompt) as [e | text]; [discriminate |].
    destruct (is_empty text); [discriminate |].
    cbn [fst]. intros H. injection H as <-. exists text. split; reflexivity.
  - unfold shown. rewrite firstn_min_length, length_firstn. reflexivity.
  - intros rows' Heq. unfold GeminiService.build_answer. rewrite Hm.
    rewrite !limited_result_firstn, Heq. reflexivity.
Qed.

(** Fifteen rows: the prompt carries the first ten under the data label. *)
Lemma build_answer_prompt_rows_witness :
  let E := Stub.env [inr (lit "Here are the users.")] (inr None) in
  let rows := Stub.three_users ++ Stub.three_users ++ Stub.three_users
              ++ Stub.three_users ++ Stub.three_users in
  model E = Some (Stub.scripted_model [inr (lit "Here are the users.")]) /\
  exists instructions,
    snd (GeminiService.build_answer E rows (lit "show all users") []) =
      [EvGenerate (instructions ++ question_label ++ lit "show all users" ++ data_label
                   ++ json_dumps E (firstn 10 rows) ++ closing_line)].
Proof.
  split; [reflexivity |].
  destruct (@build_answer_prompt_rows
              (Stub.env [inr (lit "Here are the users.")] (inr None))
              (Stub.scripted_model [inr (lit "Here are the users.")]) eq_refl)
    as [instructions H].
  exists instructions.
  exact (proj1 (H (lit "show all users")
                  (Stub.three_users ++ Stub.three_users ++ Stub.three_users
                   ++ Stub.three_users ++ Stub.three_users) [])).
Defined.

(* ================================================================== *)
(** * The pipeline *)
(* ================================================================== *)

(** The [try] block of the pipeline, stage by stage. *)
Lemma process_human_query_body_stages (E : Env) (start_time : Q)
    (human_query : str) (h0 : trace) :
  QueryProcessor.process_human_query_body E start_time human_query h0 =
  match QueryProcessor._verify_services_configured E h0 with
  | (inl e, h1) => (inl e, h1)
  | (inr _, h1) =>
      match GeminiService.human_query_to_sql E human_query (DATABASE_SCHEMA E) h1 with
      | (inl e, h2) => (inl e, h2)
      | (inr cand, h2) =>
          if QueryProcessor.validate_query_safety E (sql_query cand) then
            match DatabaseService.execute_query E (sql_query cand) h2 with
            | (inl e, h3) => (inl e, h3)
            | (inr rows, h3) =>
                match GeminiService.build_answer E rows human_query h3 with
                | (inl e, h4) => (inl e, h4)
                | (inr answer, h4) =>
                    (inr (HumanQueryResponse_dict answer (sql_query cand)
                            (clock E h4 - start_time)),
                     h4 ++ [EvTime])
                end
            end
          else (inr (security_rejection (clock E h2)), h2 ++ [EvNow])
      end
  end.
Proof.
  unfold QueryProcessor.process_human_query_body, bind.
  destruct (QueryProcessor._verify_services_configured E h0) as [[e | []] h1];
    [reflexivity |].
  destruct (GeminiService.human_query_to_sql E human_query (DATABASE_SCHEMA E) h1)
    as [[e | cand] h2]; [reflexivity |].
  destruct (QueryProcessor.validate_query_safety E (sql_query cand)); cbn [negb].
  - destruct (DatabaseService.execute_query E (sql_query cand) h2)
      as [[e | rows] h3]; [reflexivity |].
    destruct (GeminiService.build_answer E rows human_query h3)
      as [[e | answer] h4]; reflexivity.
  - reflexivity.
Qed.

(** The check of the services leaves the trace as it is. *)
Lemma verify_services_configured_trace (E : Env) (h : trace) r h' :
  QueryProcessor._verify_services_configured E h = (r, h') -> h' = h.
Proof.
  unfold QueryProcessor._verify_services_configured.
  destruct (QueryProcessor.configuration_errors E); unfold ret, raise;
    intros H; injection H as _ <-; reflexivity.
Qed.

Lemma verify_services_configured_ok (E : Env) (h : trace) :
  supabase E <> None -> model E <> None ->
  QueryProcessor._verify_services_configured E h = (inr tt, h).
Proof.
  intros Hs Hm.
  unfold QueryProcessor._verify_services_configured, QueryProcessor.configuration_errors.
  destruct (supabase E); [| contradiction].
  destruct (model E); [| contradiction]. reflexivity.
Qed.

(** The handlers of the pipeline turn every exception into an error
    outcome. *)
Lemma error_response_shape (E : Env) (error : str) (details : option str) (h : trace) :
  exists d,
    QueryProcessor._create_error_response E error details h = (inr d, h ++ [EvNow]) /\
    Dict.keys d = error_keys /\
    Dict.get d (lit "error") = Some (VStr error).
Proof.
  unfold QueryProcessor._create_error_response, ErrorResponse_dict, bind,
    datetime_now, call, ret.
  eexists. split; [reflexivity |]. split; reflexivity.
Qed.

Lemma mem_error_of_keys (d : dict) :
  (Dict.keys d = error_keys -> Dict.mem (lit "error") d = true) /\
  (Dict.keys d = success_keys -> Dict.mem (lit "error") d = false).
Proof.
  split; intros H.
  - destruct d as [|[k v] d]; [discriminate |].
    injection H as Hk _. cbn in Hk. subst k. reflexivity.
  - destruct d as [|[k1 v1] [|[k2 v2] [|[k3 v3] [|]]]]; try discriminate.
    injection H as H1 H2 H3. cbn in H1, H2, H3. subst. reflexivity.
Qed.

Lemma pipeline_handler_shape (E : Env) (e : exn) (h : trace) :
  exists d msg,
    (if is_ValueError e then
       QueryProcessor._create_error_response E
         (lit "Service not configured correctly")
         (Some (lit "Verify your Supabase and Gemini configuration in the .env file"))
     else if is_ConnectionError e then
       QueryProcessor._create_error_response E
         (lit "Connection error with services")
         (Some (lit "Verify your internet connectivity and credentials"))
     else
       QueryProcessor._create_error_response E
         (lit "Error processing query: " ++ exn_str e) None) h
    = (inr d, h ++ [EvNow]) /\
    Dict.keys d = error_keys /\
    Dict.get d (lit "error") = Some (VStr msg).
Proof.
  destruct (is_ValueError e); [| destruct (is_ConnectionError e)];
    match goal with
    | |- context [QueryProcessor._create_error_response E ?m ?o h] =>
        destruct (error_response_shape E m o h) as [d [Hd [Hk Hg]]]; exists d, m
    end; repeat split; assumption.
Qed.

(** The outcome of a run: the success shape when every stage went
    through, the error shape, with its message, in every other case. *)
Lemma process_human_query_outcome (E : Env) (human_query : str) (h : trace) :
  exists d h',
    QueryProcessor.process_human_query E human_query h = (inr d, h') /\
    ((pipeline_succeeds E human_query h /\ Dict.keys d = success_keys) \/
     (~ pipeline_succeeds E human_query h /\ Dict.keys d = error_keys /\
      exists msg, Dict.get d (lit "error") = Some (VStr msg))).
Proof.
  unfold QueryProcessor.process_human_query, bind, time_time, call, try_except.
  rewrite process_human_query_body_stages.
  (* every failing stage ends in the handler *)
  assert (Hfail : forall e h1,
    ~ pipeline_succeeds E human_query h ->
    exists d h',
      (if is_ValueError e then
         QueryProcessor._create_error_response E
           (lit "Service not configured correctly")
           (Some (lit "Verify your Supabase and Gemini configuration in the .env file"))
       else if is_ConnectionError e then
         QueryProcessor._create_error_response E
           (lit "Connection error with services")
           (Some (lit "Verify your internet connectivity and credentials"))
       else
         QueryProcessor._create_error_response E
           (lit "Error processing query: " ++ exn_str e) None) h1 = (inr d, h') /\
      ((pipeline_succeeds E human_query h /\ Dict.keys d = success_keys) \/
       (~ pipeline_succeeds E human_query h /\ Dict.keys d = error_keys /\
        exists msg, Dict.get d (lit "error") = Some (VStr msg)))).
  { intros e h1 Hno.
    destruct (pipeline_handler_shape E e h1) as [d [msg [Hd [Hk Hg]]]].
    exists d, (h1 ++ [EvNow]). split; [exact Hd |].
    right. split; [exact Hno |]. split; [exact Hk |]. exists msg. exact Hg. }
  destruct (QueryProcessor._verify_services_configured E (h ++ [EvTime]))
    as [[e | []] h1] eqn:Hv.
  { apply Hfail. intros (cand & h1' & rows & h2 & answer & h3 & H & _).
    rewrite Hv in H. discriminate. }
  pose proof (verify_services_configured_trace E _ Hv) as ->.
  destruct (GeminiService.human_query_to_sql E human_query (DATABASE_SCHEMA E)
              (h ++ [EvTime])) as [[e | cand] h2] eqn:Ht.
  { apply Hfail. intros (cand & h1' & rows & h2' & answer & h3 & _ & H & _).
    rewrite Ht in H. discriminate. }
  destruct (QueryProcessor.validate_query_safety E (sql_query cand)) eqn:Hg.
  - destruct (DatabaseService.execute_query E (sql_query cand) h2)
      as [[e | rows] h3] eqn:Hx.
    { apply Hfail.
      intros (cand' & h1' & rows & h2' & answer & h3' & _ & H & _ & H' & _).
      rewrite Ht in H. injection H as <- <-. rewrite Hx in H'. discriminate. }
    destruct (GeminiService.build_answer E rows human_query h3)
      as [[e | answer] h4] eqn:Hb.
    { apply Hfail.
      intros (cand' & h1' & rows' & h2' & answer & h3' & _ & H & _ & H' & H'').
      rewrite Ht in H. injection H as <- <-. rewrite Hx in H'. injection H' as <- <-.
      rewrite Hb in H''. discriminate. }
    eexists _, _. split; [reflexivity |]. left. split; [| reflexivity].
    exists cand, h2, rows, h3, answer, h4. repeat split; assumption.
  - eexists _, _. split; [reflexivity |]. right. split; [| split].
    + intros (cand' & h1' & rows & h2' & answer & h3' & _ & H & H' & _).
      rewrite Ht in H. injection H as <- <-. rewrite Hg in H'. discriminate.
    + reflexivity.
    + eexists. reflexivity.
Qed.

(** C10: whatever the collaborators do, the pipeline raises nothing: it
    returns a dictionary whose keys are either [answer], [sql_query],
    [execution_time] or [error], [details], [timestamp]; the two shapes
    share no key, and the key [error] is there exactly when the run did
    not go through every stage. *)
Theorem process_human_query_total (E : Env) (human_query : str) (h : trace) :
  exists d h',
    QueryProcessor.process_human_query E human_query h = (inr d, h') /\
    (Dict.keys d = success_keys \/ Dict.keys d = error_keys) /\
    (forall k, In k success_keys -> ~ In k error_keys) /\
    (Dict.keys d = success_keys <-> pipeline_succeeds E human_query h) /\
    (Dict.mem (lit "error") d = true <-> ~ pipeline_succeeds E human_query h).
Proof.
  assert (Hdisj : forall k, In k success_keys -> ~ In k error_keys).
  { intros k Hs He. cbn in Hs, He.
    repeat (destruct Hs as [<- | Hs]);
      repeat (destruct He as [He | He]; try discriminate He); try contradiction. }
  destruct (process_human_query_outcome E human_query h)
    as [d [h' [Hrun [[Hok Hk] | [Hno [Hk _]]]]]];
    exists d, h'; (split; [exact Hrun |]).
  - split; [left; exact Hk |]. split; [exact Hdisj |]. split.
    + split; [intros _; exact Hok | intros _; exact Hk].
    + rewrite (proj2 (mem_error_of_keys d) Hk).
      split; [discriminate | intros Hno; contradiction].
  - split; [right; exact Hk |]. split; [exact Hdisj |]. split.
    + split; [| intros Hok; contradiction].
      intros Hs. rewrite Hk in Hs. vm_compute in Hs. discriminate.
    + rewrite (proj1 (mem_error_of_keys d) Hk).
      split; [intros _; exact Hno | reflexivity].
Qed.

(** A translation makes one call to the model, with the prompt built from
    the question and the schema. *)
Lemma human_query_to_sql_body_trace (E : Env) (m : GenerativeModel)
    (human_query database_schema : str) (h : trace) :
  snd (GeminiService.human_query_to_sql_body E m human_query database_schema h) =
  h ++ [EvGenerate (GeminiService.sql_prompt human_query database_schema)].
Proof.
  unfold GeminiService.human_query_to_sql_body, bind, call, lift, raise.
  repeat match goal with
         | |- context [match ?x with _ => _ end] => destruct x
         end; reflexivity.
Qed.

Lemma human_query_to_sql_trace (E : Env) (human_query database_schema : str)
    (h : trace) (cand : SQLQueryResult) (h1 : trace) :
  GeminiService.human_query_to_sql E human_query database_schema h = (inr cand, h1) ->
  model E <> None /\
  h1 = h ++ [EvGenerate (GeminiService.sql_prompt human_query database_schema)].
Proof.
  unfold GeminiService.human_query_to_sql.
  destruct (model E) as [m|]; [| discriminate].
  unfold try_except.
  pose proof (human_query_to_sql_body_trace E m human_query database_schema h) as Htr.
  destruct (GeminiService.human_query_to_sql_body E m human_query database_schema h)
    as [[e | c] h'].
  - destruct (is_JSONDecodeError e); discriminate.
  - intros H. injection H as _ <-. split; [discriminate | exact Htr].
Qed.

(** A successful execution is one entry of [execute_query] and one remote
    call, on the SQL text it was given. *)
Lemma execute_query_trace (E : Env) (sql : str) (h : trace)
    (rows : list pyval) (h1 : trace) :
  DatabaseService.execute_query E sql h = (inr rows, h1) ->
  supabase E <> None /\ h1 = h ++ [EvExecuteQuery sql; EvRpc sql].
Proof.
  unfold DatabaseService.execute_query, bind, call.
  destruct (supabase E) as [c|]; [| discriminate].
  unfold try_except, ret, raise.
  destruct (rpc_execute_dynamic_query c (h ++ [EvExecuteQuery sql]) sql); [discriminate |].
  intros H. injection H as _ <-. split; [discriminate |].
  rewrite <- app_assoc. reflexivity.
Qed.

Lemma executor_calls_app (h1 h2 : trace) :
  executor_calls (h1 ++ h2) = (executor_calls h1 + executor_calls h2)%nat.
Proof. unfold executor_calls. rewrite filter_app, length_app. reflexivity. Qed.

(** C2: in a run that reaches the gate with a candidate the gate rejects,
    the pipeline returns the security rejection, and the run adds no call
    of the query executor to the trace: it consists of the reading of the
    clock, the call to the model and the time stamp of the error. *)
Theorem unsafe_candidate_never_executed (E : Env) (human_query : str) (h : trace)
    (cand : SQLQueryResult) (h1 : trace) :
  supabase E <> None ->
  GeminiService.human_query_to_sql E human_query (DATABASE_SCHEMA E) (h ++ [EvTime])
    = (inr cand, h1) ->
  QueryProcessor.validate_query_safety E (sql_query cand) = false ->
  exists h',
    QueryProcessor.process_human_query E human_query h
      = (inr (security_rejection (clock E h1)), h') /\
    h' = h ++ [EvTime;
               EvGenerate (GeminiService.sql_prompt human_query (DATABASE_SCHEMA E));
               EvNow] /\
    executor_calls h' = executor_calls h /\
    (forall sql, ~ In (EvExecuteQuery sql) [EvTime;
               EvGenerate (GeminiService.sql_prompt human_query (DATABASE_SCHEMA E));
               EvNow]).
Proof.
  intros Hs Ht Hg.
  destruct (human_query_to_sql_trace _ _ _ _ Ht) as [Hm Hh1].
  unfold QueryProcessor.process_human_query, bind, time_time, call, try_except.
  rewrite process_human_query_body_stages.
  rewrite (verify_services_configured_ok E _ Hs Hm), Ht, Hg.
  eexists. split; [reflexivity |]. split; [| split].
  - rewrite Hh1, <- !app_assoc. reflexivity.
  - rewrite Hh1, <- !app_assoc, executor_calls_app. cbn. apply Nat.add_0_r.
  - intros sql [H | [H | [H | []]]]; discriminate.
Qed.

(** The translator yields [DROP TABLE users]: rejected, never executed. *)
Lemma unsafe_candidate_never_executed_witness :
  let E := Stub.env [inr Stub.drop_table_users] (inr (Some Stub.three_users)) in
  exists h',
    QueryProcessor.process_human_query E (lit "show all users") []
      = (inr (security_rejection 2), h') /\
    executor_calls h' = 0%nat.
Proof.
  intros E.
  destruct (@unsafe_candidate_never_executed E (lit "show all users") []
              {| sql_query := lit "DROP TABLE users";
                 original_query := lit "show all users";
                 confidence := Some (Finite (1 # 2)) |}
              [EvTime; EvGenerate (GeminiService.sql_prompt (lit "show all users")
                                     (DATABASE_SCHEMA E))])
    as [h' [Hrun [_ [Hcalls _]]]].
  - discriminate.
  - vm_compute. reflexivity.
  - vm_compute. reflexivity.
  - exists h'. split; [exact Hrun | exact Hcalls].
Defined.

(** C7, as the code has it: in a run that goes through every stage, the
    outcome carries the answer of the composer, the SQL string of the
    translator, which is the string the gate accepted and the executor
    ran, and as execution time the reading of the wall clock after the
    composition minus its reading at the start; that difference is not
    negative exactly when the clock was not set back between the two
    readings. *)
Theorem success_outcome_fields (E : Env) (human_query : str) (h : trace)
    (cand : SQLQueryResult) (h1 : trace) (rows : list pyval) (h2 : trace)
    (answer : str) (h3 : trace) :
  GeminiService.human_query_to_sql E human_query (DATABASE_SCHEMA E) (h ++ [EvTime])
    = (inr cand, h1) ->
  QueryProcessor.validate_query_safety E (sql_query cand) = true ->
  DatabaseService.execute_query E (sql_query cand) h1 = (inr rows, h2) ->
  GeminiService.build_answer E rows human_query h2 = (inr answer, h3) ->
  exists execution_time,
    QueryProcessor.process_human_query E human_query h =
      (inr [ (lit "answer", VStr answer);
             (lit "sql_query", VStr (sql_query cand));
             (lit "execution_time", VFloat (Finite execution_time)) ],
       h3 ++ [EvTime]) /\
    execution_time = clock E h3 - clock E h /\
    (0 <= execution_time <-> clock E h <= clock E h3) /\
    h2 = h1 ++ [EvExecuteQuery (sql_query cand); EvRpc (sql_query cand)].
Proof.
  intros Ht Hg Hx Hb.
  destruct (human_query_to_sql_trace _ _ _ _ Ht) as [Hm _].
  destruct (execute_query_trace _ _ _ Hx) as [Hs Hh2].
  exists (clock E h3 - clock E h).
  split; [| split; [reflexivity | split; [| exact Hh2]]].
  - unfold QueryProcessor.process_human_query, bind, time_time, call, try_except.
    rewrite process_human_query_body_stages.
    rewrite (verify_services_configured_ok E _ Hs Hm), Ht, Hg, Hx, Hb.
    reflexivity.
  - unfold Qminus. symmetry. apply Qle_minus_iff.
Qed.

(** The question [show all users], answered over three rows, with a clock
    that advances. *)
Lemma success_outcome_fields_witness :
  let E := Stub.env [inr Stub.fenced_select_users; inr (lit "There are three users.")]
                    (inr (Some Stub.three_users)) in
  exists execution_time h',
    QueryProcessor.process_human_query E (lit "show all users") [] =
      (inr [ (lit "answer", VStr (lit "There are three users."));
             (lit "sql_query", VStr (lit "SELECT * FROM users"));
             (lit "execution_time", VFloat (Finite execution_time)) ], h') /\
    0 <= execution_time.
Proof.
  intros E.
  pose (q := lit "show all users").
  pose (h1 := [EvTime; EvGenerate (GeminiService.sql_prompt q (DATABASE_SCHEMA E))]).
  pose (h2 := h1 ++ [EvExecuteQuery (lit "SELECT * FROM users");
                     EvRpc (lit "SELECT * FROM users")]).
  pose (h3 := h2 ++ [EvGenerate (GeminiService.answer_prompt q
                                   (json_dumps E Stub.three_users))]).
  destruct (@success_outcome_fields E q []
              {| sql_query := lit "SELECT * FROM users";
                 original_query := q;
                 confidence := Some (Finite (1 # 2)) |}
              h1 Stub.three_users h2 (lit "There are three users.") h3)
    as [t [Hrun [_ [Hpos _]]]].
  - vm_compute. reflexivity.
  - vm_compute. reflexivity.
  - vm_compute. reflexivity.
  - vm_compute. reflexivity.
  - exists t, (h3 ++ [EvTime]). split; [exact Hrun |].
    apply Hpos. vm_compute. discriminate.
Defined.

(** The execution time is not always non-negative: with a wall clock set
    back by seven seconds during the run, every stage succeeds and the
    outcome carries the execution time -7. *)
Lemma clock_set_back_negative_execution_time :
  let E := Stub.env_clock_set_back
             [inr Stub.fenced_select_users; inr (lit "There are three users.")]
             (inr (Some Stub.three_users)) in
  ~ execution_time_not_negative E (lit "show all users") [].
Proof.
  intros E Hclaim.
  assert (Hok : pipeline_succeeds E (lit "show all users") []).
  { eexists _, _, _, _, _, _.
    split; [vm_compute; reflexivity |].
    split; [vm_compute; reflexivity |].
    split; [vm_compute; reflexivity |].
    split; vm_compute; reflexivity. }
  assert (Hrun : exists d h',
             QueryProcessor.process_human_query E (lit "show all users") [] = (inr d, h') /\
             Dict.get d (lit "execution_time") = Some (VFloat (Finite (-7 # 1)))).
  { eexists _, _. split; vm_compute; reflexivity. }
  destruct Hrun as (d & h' & Hrun & Hget).
  destruct (Hclaim Hok d h' Hrun) as (t & Ht & Hle).
  rewrite Hget in Ht. injection Ht as <-.
  vm_compute in Hle. apply Hle. reflexivity.
Qed.

(* ================================================================== *)
(** * The query endpoint *)
(* ================================================================== *)

(** C3, as the code has it: the handler answers an empty query with 400,
    and every error outcome of the pipeline, whatever failed in it
    (configuration, connection, generation, translation, execution as well
    as the security rejection), with 400 and the error message as detail;
    a run through every stage is returned as it is.  The handler raises
    nothing else: status 500 is never produced. *)
Theorem route_maps_every_error_to_400 (E : Env) (human_query : str) (h : trace) :
  ((is_empty (strip human_query) = true /\
    Routes.process_human_query E human_query h =
      (inl (Routes.HTTPException 400 (VStr (lit "Query cannot be empty"))), h)) \/
   (is_empty (strip human_query) = false /\
    exists result h',
      QueryProcessor.process_human_query E human_query h = (inr result, h') /\
      ((pipeline_succeeds E human_query h /\
        Routes.process_human_query E human_query h = (inr result, h')) \/
       (~ pipeline_succeeds E human_query h /\
        exists msg,
          Dict.get result (lit "error") = Some (VStr msg) /\
          Routes.process_human_query E human_query h =
            (inl (Routes.HTTPException 400 (VStr msg)), h'))))) /\
  (forall r h', Routes.process_human_query E human_query h = (inl r, h') ->
     exists detail, r = Routes.HTTPException 400 detail).
Proof.
  assert (Hcases :
    (is_empty (strip human_query) = true /\
     Routes.process_human_query E human_query h =
       (inl (Routes.HTTPException 400 (VStr (lit "Query cannot be empty"))), h)) \/
    (is_empty (strip human_query) = false /\
     exists result h',
       QueryProcessor.process_human_query E human_query h = (inr result, h') /\
       ((pipeline_succeeds E human_query h /\
         Routes.process_human_query E human_query h = (inr result, h')) \/
        (~ pipeline_succeeds E human_query h /\
         exists msg,
           Dict.get result (lit "error") = Some (VStr msg) /\
           Routes.process_human_query E human_query h =
             (inl (Routes.HTTPException 400 (VStr msg)), h'))))).
  { unfold Routes.process_human_query, Routes.process_human_query_body.
    destruct (is_empty (strip human_query)); [left; split; reflexivity | right].
    split; [reflexivity |].
    destruct (process_human_query_outcome E human_query h)
      as [d [h' [Hrun [[Hok Hk] | [Hno [Hk [msg Hg]]]]]]];
      exists d, h'; (split; [exact Hrun |]); rewrite Hrun.
    - left. split; [exact Hok |].
      rewrite (proj2 (mem_error_of_keys d) Hk). reflexivity.
    - right. split; [exact Hno |]. exists msg. split; [exact Hg |].
      rewrite (proj1 (mem_error_of_keys d) Hk).
      unfold Dict.get_default. rewrite Hg. reflexivity. }
  split; [exact Hcases |].
  intros r h' Hr.
  destruct Hcases as [[_ H1] | [_ (d & h1 & _ & [[_ H2] | [_ (msg & _ & H2)]])]].
  - rewrite H1 in Hr. injection Hr as <- _. eexists. reflexivity.
  - rewrite H2 in Hr. discriminate.
  - rewrite H2 in Hr. injection Hr as <- _. eexists. reflexivity.
Qed.

(** A translation failure is answered with 400, not with a server fault:
    the model returns text without an envelope, the translation fails, the
    run is neither empty nor a security rejection, and the status is 400. *)
Lemma translation_failure_is_client_error :
  let E := Stub.env [inr Stub.no_envelope] (inr (Some Stub.three_users)) in
  ~ only_rejections_are_client_errors E (lit "show all users") [].
Proof.
  intros E Hclaim.
  destruct (Hclaim 400%Z
              (VStr (lit "Error processing query: Error processing query with Gemini: No valid JSON found in response"))
              [EvTime; EvGenerate (GeminiService.sql_prompt (lit "show all users")
                                     (DATABASE_SCHEMA E)); EvNow])
    as [_ Hserver].
  - vm_compute. reflexivity.
  - assert (Hfault : server_fault 400).
    { apply Hserver. intros [Hempty | (cand & h1 & _ & Ht & _)].
      - vm_compute in Hempty. discriminate.
      - vm_compute in Ht. discriminate. }
    unfold server_fault in Hfault. lia.
Qed.

(* ================================================================== *)
(** * The translator *)
(* ================================================================== *)

Lemma envelope_payload_head (text : str) :
  find text (lit "{") <> (-1)%Z ->
  envelope_payload text = [] \/ exists t, envelope_payload text = 123%N :: t.
Proof.
  intros Hfind. unfold envelope_payload. cbv zeta.
  destruct (find_from_spec (lit "{") text 0 eq_refl) as [Hnone | [Hle Hst]];
    [contradiction |].
  fold (find text (lit "{")) in Hle, Hst. rewrite Z.sub_0_r in Hst.
  apply startswith_spec in Hst as [t Ht].
  change (lit "{" ++ t) with (123%N :: t) in Ht.
  destruct (slice_head text (rfind text (lit "}") + 1) Hle Ht) as [-> | [t' ->]].
  - left. reflexivity.
  - right.
    change (lit "```json") with (96%N :: lit "``json").
    rewrite replace_head by reflexivity.
    change (lit "```") with (96%N :: lit "``").
    rewrite replace_head by reflexivity.
    apply strip_head. reflexivity.
Qed.

Lemma envelope_payload_object (text : str) (v : pyval) :
  find text (lit "{") <> (-1)%Z ->
  Json.loads (envelope_payload text) = inr v ->
  exists d, v = VDict d.
Proof.
  intros Hfind Hl.
  destruct (@envelope_payload_head text Hfind) as [H | [t H]]; rewrite H in Hl.
  - vm_compute in Hl. discriminate.
  - exact (loads_object _ Hl).
Qed.

Lemma get_default_absent (d : dict) (k : str) (v : pyval) :
  Dict.mem k d = false -> Dict.get_default d k v = v.
Proof.
  unfold Dict.mem, Dict.get_default. destruct (Dict.get d k); [discriminate | reflexivity].
Qed.

Lemma clean_json_response_payload (text : str) :
  (no_brace_pair text /\
   GeminiService._clean_json_response text
     = inl (ValueError (lit "No valid JSON found in response"))) \/
  (~ no_brace_pair text /\
   GeminiService._clean_json_response text = inr (envelope_payload text)).
Proof.
  unfold GeminiService._clean_json_response, no_brace_pair. cbv zeta.
  destruct (Z.eqb_spec (find text (lit "{")) (-1)) as [Hs | Hs]; cbn [orb].
  - left. split; [left; exact Hs | reflexivity].
  - destruct (Z.eqb_spec (rfind text (lit "}") + 1) 0) as [He | He].
    + left. split; [right; lia | reflexivity].
    + right. split; [intros [H | H]; [contradiction | lia] | reflexivity].
Qed.

(** The five ways a translation ends, once the model has answered. *)
Lemma human_query_to_sql_cases (E : Env) (m : GenerativeModel)
    (human_query database_schema : str) (h : trace) (text : str) :
  model E = Some m ->
  generate_content m h (GeminiService.sql_prompt human_query database_schema) = inr text ->
  let run := GeminiService.human_query_to_sql E human_query database_schema h in
  let h' := h ++ [EvGenerate (GeminiService.sql_prompt human_query database_schema)] in
  (no_brace_pair text /\ exists msg, run = (inl (Exception msg), h')) \/
  (~ no_brace_pair text /\
   ((exists jmsg msg, Json.loads (envelope_payload text) = inl jmsg /\
                      run = (inl (Exception msg), h')) \/
    (exists d, Json.loads (envelope_payload text) = inr (VDict d) /\
       ((Dict.mem (lit "sql_query") d = false /\
         exists msg, run = (inl (Exception msg), h')) \/
        (Dict.mem (lit "sql_query") d = true /\
         ((exists e msg, candidate_of E human_query d = inl e /\
                         run = (inl (Exception msg), h')) \/
          (exists cand, candidate_of E human_query d = inr cand /\
                        run = (inr cand, h')))))))).
Proof.
  intros Hm Hgen run h'. subst run h'.
  unfold GeminiService.human_query_to_sql. rewrite Hm.
  unfold try_except, GeminiService.human_query_to_sql_body, bind, call, lift, raise.
  cbv zeta. rewrite Hgen.
  destruct text as [|c text'] eqn:Htext.
  { left. split; [left; reflexivity | eexists; reflexivity]. }
  rewrite <- Htext in *. replace (is_empty text) with false by (subst; reflexivity).
  destruct (clean_json_response_payload text) as [[Hno ->] | [Hpair ->]].
  { left. split; [exact Hno | eexists; reflexivity]. }
  right. split; [exact Hpair |].
  unfold GeminiService.json_loads.
  destruct (Json.loads (envelope_payload text)) as [jmsg | v] eqn:Hl.
  { left. eexists _, _. split; reflexivity. }
  right.
  assert (Hfind : find text (lit "{") <> (-1)%Z).
  { intros H. apply Hpair. left. exact H. }
  destruct (@envelope_payload_object text v Hfind Hl) as [d ->].
  exists d. split; [reflexivity |].
  cbn [GeminiService.py_in GeminiService.py_get].
  destruct (Dict.mem (lit "sql_query") d) eqn:Hk; cbn [negb].
  - right. split; [reflexivity |].
    fold (candidate_of E human_query d).
    destruct (candidate_of E human_query d) as [e | cand] eqn:Hc.
    + left. exists e. destruct (is_JSONDecodeError e); eexists; split; reflexivity.
    + right. exists cand. split; reflexivity.
  - left. split; [reflexivity |]. eexists. reflexivity.
Qed.




(** C5: on the fenced answer of the specification's example the
    translation yields the query [SELECT * FROM users], the question as
    original query and the confidence 0.5, whatever the question; and in
    general a candidate read from an object without [original_query] has
    the question there, one read from an object without [confidence] has
    0.5. *)
Theorem translation_defaults (E : Env) (m : GenerativeModel)
    (human_query database_schema : str) (h : trace) :
  model E = Some m ->
  (generate_content m h (GeminiService.sql_prompt human_query database_schema)
     = inr Stub.fenced_select_users ->
   GeminiService.human_query_to_sql E human_query database_schema h =
     (inr {| sql_query := lit "SELECT * FROM users";
             original_query := human_query;
             confidence := Some (Finite (1 # 2)) |},
      h ++ [EvGenerate (GeminiService.sql_prompt human_query database_schema)])) /\
  (forall text d cand h',
     generate_content m h (GeminiService.sql_prompt human_query database_schema)
       = inr text ->
     Json.loads (envelope_payload text) = inr (VDict d) ->
     GeminiService.human_query_to_sql E human_query database_schema h = (inr cand, h') ->
     (Dict.mem (lit "original_query") d = false -> original_query cand = human_query) /\
     (Dict.mem (lit "confidence") d = false -> confidence cand = Some (Finite (1 # 2))) /\
     Dict.get d (lit "sql_query") = Some (VStr (sql_query cand))).
Proof.
  intros Hm. split.
  - intros Hgen.
    destruct (human_query_to_sql_cases E human_query database_schema h Hm Hgen)
      as [[Hno _]
         | [_ [(jmsg & msg & Hl & _)
              | (d & Hl & [[Hk _]
                          | [_ [(e & msg & Hc & _) | (cand & Hc & Hrun)]]])]]].
    + destruct Hno as [H | H]; vm_compute in H; discriminate.
    + vm_compute in Hl. discriminate.
    + vm_compute in Hl. injection Hl as <-. vm_compute in Hk. discriminate.
    + vm_compute in Hl. injection Hl as <-. discriminate.
    + vm_compute in Hl. injection Hl as <-. rewrite Hrun.
      injection Hc as <-. reflexivity.
  - intros text d cand h' Hgen Hl Hrun.
    destruct (human_query_to_sql_cases E human_query database_schema h Hm Hgen)
      as [[_ [msg Hrun']]
         | [_ [(jmsg & msg & _ & Hrun')
              | (d' & Hl' & [[_ [msg Hrun']]
                          | [Hk [(e & msg & _ & Hrun') | (cand' & Hc & Hrun')]]])]]];
      rewrite Hrun' in Hrun; try discriminate.
    injection Hrun as <- _. rewrite Hl in Hl'. injection Hl' as <-.
    unfold candidate_of, SQLQueryResult_init in Hc.
    destruct (validate_str (Dict.get_default d (lit "sql_query") (VStr []))) as [s|] eqn:Hs;
      [| discriminate].
    destruct (validate_str (Dict.get_default d (lit "original_query") (VStr human_query)))
      as [o|] eqn:Ho; [| discriminate].
    destruct (validate_optional_float E
                (Dict.get_default d (lit "confidence") (VFloat (Finite (1 # 2)))))
      as [c|] eqn:Hcf; [| discriminate].
    injection Hc as <-. cbn [original_query confidence sql_query].
    split; [| split].
    + intros Habs. rewrite (@get_default_absent d _ _ Habs) in Ho.
      injection Ho as <-. reflexivity.
    + intros Habs. rewrite (@get_default_absent d _ _ Habs) in Hcf.
      injection Hcf as <-. reflexivity.
    + unfold Dict.mem, Dict.get_default in *.
      destruct (Dict.get d (lit "sql_query")) as [v|]; [| discriminate].
      destruct v; try discriminate. injection Hs as <-. reflexivity.
Qed.

(** The example of the specification, on the question [show all users]. *)
Lemma translation_defaults_witness :
  let E := Stub.env [inr Stub.fenced_select_users] (inr None) in
  GeminiService.human_query_to_sql E (lit "show all users") (DATABASE_SCHEMA E) [] =
    (inr {| sql_query := lit "SELECT * FROM users";
            original_query := lit "show all users";
            confidence := Some (Finite (1 # 2)) |},
     [EvGenerate (GeminiService.sql_prompt (lit "show all users") (DATABASE_SCHEMA E))]).
Proof.
  intros E.
  exact (proj1 (@translation_defaults E (Stub.scripted_model [inr Stub.fenced_select_users])
                  (lit "show all users") (DATABASE_SCHEMA E) [] eq_refl) eq_refl).
Defined.

(* ================================================================== *)
(** * The stages of the pipeline, one by one *)
(* ================================================================== *)

(** A failed translation, with the model initialised: one call was made,
    and the exception is a plain [Exception] with one of two prefixes. *)
Lemma human_query_to_sql_error (E : Env) (human_query database_schema : str)
    (h : trace) (e : exn) (h' : trace) :
  model E <> None ->
  GeminiService.human_query_to_sql E human_query database_schema h = (inl e, h') ->
  h' = h ++ [EvGenerate (GeminiService.sql_prompt human_query database_schema)] /\
  exists msg, e = Exception (format_prefix ++ msg) \/
              e = Exception (translation_prefix ++ msg).
Proof.
  intros Hm. unfold GeminiService.human_query_to_sql.
  destruct (model E) as [m|]; [| contradiction].
  unfold try_except.
  pose proof (human_query_to_sql_body_trace E m human_query database_schema h) as Htr.
  destruct (GeminiService.human_query_to_sql_body E m human_query database_schema h)
    as [[e0 | c] h0]; [| discriminate].
  cbn [snd] in Htr. subst h0.
  destruct (is_JSONDecodeError e0); unfold raise; intros H; injection H as <- <-;
    (split; [reflexivity |]); exists (exn_str e0); [left | right]; reflexivity.
Qed.

Lemma execute_query_error (E : Env) (sql : str) (h : trace) (e : exn) (h' : trace) :
  supabase E <> None ->
  DatabaseService.execute_query E sql h = (inl e, h') ->
  h' = h ++ [EvExecuteQuery sql; EvRpc sql] /\
  exists msg, e = Exception (execution_prefix ++ msg).
Proof.
  intros Hs. unfold DatabaseService.execute_query, bind, call, raise.
  destruct (supabase E) as [client|]; [| contradiction].
  unfold try_except, ret, raise.
  destruct (rpc_execute_dynamic_query client (h ++ [EvExecuteQuery sql]) sql)
    as [e0 | data]; intros H; [| discriminate].
  injection H as <- <-.
  split; [rewrite <- app_assoc; reflexivity | eexists; reflexivity].
Qed.

(** The composer, with the model initialised: one call, with the prompt
    over the first ten rows; it succeeds exactly on a text that is not
    empty, with that text stripped. *)
Lemma build_answer_run (E : Env) (m : GenerativeModel) (rows : list pyval)
    (human_query : str) (h : trace) :
  model E = Some m ->
  let prompt := GeminiService.answer_prompt human_query (json_dumps E (firstn 10 rows)) in
  exists r,
    GeminiService.build_answer E rows human_query h = (r, h ++ [EvGenerate prompt]) /\
    ((exists msg, r = inl (Exception (composition_prefix ++ msg)) /\
                  (generate_content m h prompt = inr [] \/
                   exists e, generate_content m h prompt = inl e)) \/
     (exists text, text <> [] /\ generate_content m h prompt = inr text /\
                   r = inr (strip text))).
Proof.
  intros Hm prompt. unfold GeminiService.build_answer. rewrite Hm.
  rewrite limited_result_firstn. fold prompt.
  unfold try_except, bind, call, raise, ret.
  destruct (generate_content m h prompt) as [e | [|c text]] eqn:Hg; cbn [is_empty].
  - eexists. split; [reflexivity |]. left. eexists. split; [reflexivity |].
    right. exists e. reflexivity.
  - eexists. split; [reflexivity |]. left. eexists. split; [reflexivity |].
    left. reflexivity.
  - eexists. split; [reflexivity |]. right. exists (c :: text).
    split; [discriminate |]. split; reflexivity.
Qed.

Lemma verify_services_configured_cases (E : Env) (h : trace) :
  (supabase E <> None /\ model E <> None /\
   QueryProcessor._verify_services_configured E h = (inr tt, h)) \/
  ((supabase E = None \/ model E = None) /\
   exists msg, QueryProcessor._verify_services_configured E h = (inl (ValueError msg), h)).
Proof.
  unfold QueryProcessor._verify_services_configured, QueryProcessor.configuration_errors.
  destruct (supabase E), (model E); cbn [app]; unfold ret, raise.
  - left. repeat split; discriminate.
  - right. split; [right; reflexivity | eexists; reflexivity].
  - right. split; [left; reflexivity | eexists; reflexivity].
  - right. split; [left; reflexivity | eexists; reflexivity].
Qed.

(** Every run of the pipeline, case by case: what it returns and what it
    adds to the trace. *)
Lemma process_human_query_run (E : Env) (human_query : str) (h : trace) :
  let p1 := GeminiService.sql_prompt human_query (DATABASE_SCHEMA E) in
  exists d new t,
    QueryProcessor.process_human_query E human_query h = (inr d, h ++ new) /\
    (((supabase E = None \/ model E = None) /\
      new = [EvTime; EvNow] /\
      d = error_outcome (lit "Service not configured correctly")
            (Some (lit "Verify your Supabase and Gemini configuration in the .env file")) t)
     \/
     (supabase E <> None /\ model E <> None /\
      ((new = [EvTime; EvGenerate p1; EvNow] /\
        ((exists msg, d = error_outcome (pipeline_prefix ++ format_prefix ++ msg) None t)
         \/ (exists msg,
               d = error_outcome (pipeline_prefix ++ translation_prefix ++ msg) None t)
         \/ (d = security_rejection t /\ security_rejected E human_query h)))
       \/
       (exists sql,
          QueryProcessor.validate_query_safety E sql = true /\
          ((new = [EvTime; EvGenerate p1; EvExecuteQuery sql; EvRpc sql; EvNow] /\
            exists msg,
              d = error_outcome (pipeline_prefix ++ execution_prefix ++ msg) None t)
           \/
           (exists p2,
              (new = [EvTime; EvGenerate p1; EvExecuteQuery sql; EvRpc sql;
                      EvGenerate p2; EvNow] /\
               exists msg,
                 d = error_outcome (pipeline_prefix ++ composition_prefix ++ msg) None t)
              \/
              (new = [EvTime; EvGenerate p1; EvExecuteQuery sql; EvRpc sql;
                      EvGenerate p2; EvTime] /\
               pipeline_succeeds E human_query h /\
               exists answer,
                 d = HumanQueryResponse_dict answer sql t))))))).
Proof.
  intros p1. subst p1.
  unfold QueryProcessor.process_human_query, bind, time_time, call, try_except.
  rewrite process_human_query_body_stages.
  unfold QueryProcessor._create_error_response, ErrorResponse_dict, bind,
    datetime_now, call, ret.
  destruct (verify_services_configured_cases E (h ++ [EvTime]))
    as [(Hs & Hm & ->) | (Hun & msg & ->)].
  2:{ cbn [is_ValueError].
      eexists _, [EvTime; EvNow], _.
      split; [rewrite <- !app_assoc; reflexivity |]. left. split; [exact Hun |]. split; reflexivity. }
  destruct (GeminiService.human_query_to_sql E human_query (DATABASE_SCHEMA E)
              (h ++ [EvTime])) as [[e | cand] h1] eqn:Ht.
  { destruct (human_query_to_sql_error _ _ _ _ Hm Ht) as [-> [msg [-> | ->]]];
      cbn [is_ValueError is_ConnectionError exn_str];
      eexists _, [EvTime; EvGenerate _; EvNow], _;
      (split; [rewrite <- !app_assoc; reflexivity |]);
      right; (split; [exact Hs |]); (split; [exact Hm |]); left;
      (split; [reflexivity |]).
    - left. exists msg. reflexivity.
    - right. left. exists msg. reflexivity. }
  destruct (human_query_to_sql_trace _ _ _ _ Ht) as [_ ->].
  destruct (QueryProcessor.validate_query_safety E (sql_query cand)) eqn:Hg.
  2:{ eexists _, [EvTime; EvGenerate _; EvNow], _.
      split; [rewrite <- !app_assoc; reflexivity |].
      right. split; [exact Hs |]. split; [exact Hm |]. left.
      split; [reflexivity |]. right. right. split; [reflexivity |].
      exists cand. eexists. split; [apply verify_services_configured_ok; assumption |].
      split; [exact Ht | exact Hg]. }
  destruct (DatabaseService.execute_query E (sql_query cand) _)
    as [[e | rows] h2] eqn:Hx.
  { destruct (execute_query_error _ _ _ Hs Hx) as [-> [msg ->]].
    cbn [is_ValueError is_ConnectionError exn_str].
    eexists _, [EvTime; EvGenerate _; EvExecuteQuery (sql_query cand);
                EvRpc (sql_query cand); EvNow], _.
    split; [rewrite <- !app_assoc; reflexivity |].
    right. split; [exact Hs |]. split; [exact Hm |]. right.
    exists (sql_query cand). split; [exact Hg |]. left.
    split; [reflexivity |]. exists msg. reflexivity. }
  destruct (execute_query_trace _ _ _ Hx) as [_ ->].
  destruct (model E) as [m|] eqn:Hmodel; [| contradiction].
  match goal with
  | |- context [GeminiService.build_answer E rows human_query ?h3] =>
      destruct (build_answer_run E rows human_query h3 Hmodel)
        as [r [Hb [(msg & -> & _) | (text & _ & _ & ->)]]]; rewrite Hb
  end.
  - cbn [is_ValueError is_ConnectionError exn_str].
    eexists _, [EvTime; EvGenerate _; EvExecuteQuery (sql_query cand);
                EvRpc (sql_query cand); EvGenerate _; EvNow], _.
    split; [rewrite <- !app_assoc; reflexivity |].
    right. split; [exact Hs |]. split; [discriminate |]. right.
    exists (sql_query cand). split; [exact Hg |]. right. eexists. left.
    split; [reflexivity |]. exists msg. reflexivity.
  - eexists _, [EvTime; EvGenerate _; EvExecuteQuery (sql_query cand);
                EvRpc (sql_query cand); EvGenerate _; EvTime], _.
    split; [rewrite <- !app_assoc; reflexivity |].
    right. split; [exact Hs |]. split; [discriminate |]. right.
    exists (sql_query cand). split; [exact Hg |]. right. eexists. right.
    split; [reflexivity |]. split.
    + exists cand. eexists. exists rows. eexists. exists (strip text). eexists.
      split; [apply verify_services_configured_ok; [exact Hs | rewrite Hmodel; discriminate] |].
      split; [exact Ht |]. split; [exact Hg |]. split; [exact Hx | exact Hb].
    + eexists. reflexivity.
Qed.

(* ================================================================== *)
(** * What a run does and returns *)
(* ================================================================== *)

(** X1: the executor only sees SQL the gate accepted: in every run of the
    pipeline, each entry of [execute_query] and each remote call the run
    adds to the trace carries a text on which [validate_query_safety]
    answers true. *)
Theorem only_accepted_sql_reaches_executor (E : Env) (human_query : str) (h : trace) :
  exists d new,
    QueryProcessor.process_human_query E human_query h = (inr d, h ++ new) /\
    forall sql, In (EvExecuteQuery sql) new \/ In (EvRpc sql) new ->
                QueryProcessor.validate_query_safety E sql = true.
Proof.
  destruct (process_human_query_run E human_query h) as (d & new & t & Hrun & Hcases).
  exists d, new. split; [exact Hrun |].
  intros sql Hin.
  destruct Hcases as [(_ & -> & _) | (_ & _ & [(-> & _) | (sql' & Hg & Hnew)])].
  - cbn in Hin. destruct Hin as [[H | [H | []]] | [H | [H | []]]]; discriminate.
  - cbn in Hin.
    destruct Hin as [[H | [H | [H | []]]] | [H | [H | [H | []]]]]; discriminate.
  - assert (Hsql : sql = sql'); [| rewrite Hsql; exact Hg].
    destruct Hnew as [(-> & _) | (p2 & [(-> & _) | (-> & _)])]; cbn in Hin;
      repeat match goal with
             | H : _ \/ _ |- _ => destruct H
             | H : False |- _ => contradiction
             | H : EvExecuteQuery _ = EvExecuteQuery _ |- _ => injection H as H; auto
             | H : EvRpc _ = EvRpc _ |- _ => injection H as H; auto
             | H : _ = _ |- _ => discriminate H
             end.
Qed.

(** X2: no stage is repeated: a run adds at most two calls to the model
    and at most one entry of the executor with one remote call, in the
    order translation, execution, composition. *)
Theorem pipeline_never_retries (E : Env) (human_query : str) (h : trace) :
  exists d new,
    QueryProcessor.process_human_query E human_query h = (inr d, h ++ new) /\
    (length (filter is_generate_event new) <= 2)%nat /\
    (length (filter is_rpc_event new) <= 1)%nat /\
    (executor_calls new <= 2)%nat /\
    run_events E human_query new.
Proof.
  destruct (process_human_query_run E human_query h) as (d & new & t & Hrun & Hcases).
  exists d, new. split; [exact Hrun |].
  destruct Hcases as [(_ & -> & _) | (_ & _ & [(-> & _) | (sql' & Hg & Hnew)])].
  - cbn. repeat split; try lia. left. reflexivity.
  - cbn. repeat split; try lia. right. left. reflexivity.
  - destruct Hnew as [(-> & _) | (p2 & [(-> & _) | (-> & _)])]; cbn;
      (repeat split; try lia); right; right; exists sql'; (split; [exact Hg |]).
    + left. reflexivity.
    + right. exists p2. left. reflexivity.
    + right. exists p2. right. reflexivity.
Qed.



(* ================================================================== *)
(** * Stripping *)
(* ================================================================== *)

Lemma lstrip_head (s : str) (c : char) (t : str) :
  lstrip s = c :: t -> isspace c = false.
Proof.
  induction s as [|d s IH]; cbn [lstrip]; [discriminate |].
  destruct (isspace d) eqn:Hd; [exact IH |].
  intros H. injection H as <- _. exact Hd.
Qed.

Lemma lstrip_all_space (w : str) : all_space w -> lstrip w = [].
Proof.
  induction 1 as [|c w Hc _ IH]; cbn [lstrip]; [reflexivity |].
  rewrite Hc. exact IH.
Qed.

Lemma lstrip_nil_all_space (s : str) : lstrip s = [] -> all_space s.
Proof.
  induction s as [|c s IH]; cbn [lstrip]; [constructor |].
  destruct (isspace c) eqn:Hc; [| discriminate].
  intros H. constructor; [exact Hc | exact (IH H)].
Qed.

Lemma lstrip_pad (w s : str) : all_space w -> lstrip (w ++ s) = lstrip s.
Proof.
  induction 1 as [|c w Hc _ IH]; cbn [lstrip app]; [reflexivity |].
  rewrite Hc. exact IH.
Qed.

Lemma lstrip_idempotent (s : str) : lstrip (lstrip s) = lstrip s.
Proof.
  destruct (lstrip s) as [|c t] eqn:H; [reflexivity |].
  cbn [lstrip]. rewrite (lstrip_head _ H). reflexivity.
Qed.

Lemma all_space_rev (w : str) : all_space w -> all_space (rev w).
Proof. unfold all_space. apply Forall_rev. Qed.

Lemma rstrip_pad (s w : str) : all_space w -> rstrip (s ++ w) = rstrip s.
Proof.
  intros Hw. unfold rstrip. rewrite rev_app_distr.
  rewrite lstrip_pad by (apply all_space_rev; exact Hw). reflexivity.
Qed.

Lemma rstrip_all_space (w : str) : all_space w -> rstrip w = [].
Proof.
  intros Hw. unfold rstrip. rewrite lstrip_all_space by (apply all_space_rev; exact Hw).
  reflexivity.
Qed.

(** [lstrip] of a text followed by white space. *)
Lemma lstrip_app_spaces (s w : str) :
  all_space w ->
  lstrip (s ++ w) = match lstrip s with [] => [] | _ :: _ => lstrip s ++ w end.
Proof.
  intros Hw. induction s as [|c s IH]; cbn [lstrip app].
  - apply lstrip_all_space. exact Hw.
  - destruct (isspace c); [exact IH | reflexivity].
Qed.

Lemma strip_pad (w1 s w2 : str) :
  all_space w1 -> all_space w2 -> strip (w1 ++ s ++ w2) = strip s.
Proof.
  intros H1 H2. unfold strip. rewrite lstrip_pad by exact H1.
  rewrite lstrip_app_spaces by exact H2.
  destruct (lstrip s) as [|c t] eqn:Hs; [reflexivity |].
  apply rstrip_pad. exact H2.
Qed.

Lemma strip_all_space (s : str) : all_space s <-> strip s = [].
Proof.
  unfold strip. split.
  - intros H. rewrite lstrip_all_space by exact H. reflexivity.
  - intros H. apply lstrip_nil_all_space.
    destruct (lstrip s) as [|c t] eqn:Hs; [reflexivity |].
    exfalso. pose proof (lstrip_head _ Hs) as Hc.
    unfold rstrip in H. cbn [rev] in H.
    rewrite lstrip_snoc in H by exact Hc.
    rewrite rev_app_distr in H. discriminate.
Qed.

(** The first and the last character of a stripped text are not white
    space. *)
Lemma strip_edges (s : str) :
  (forall c t, strip s = c :: t -> isspace c = false) /\
  (forall c t, rev (strip s) = c :: t -> isspace c = false).
Proof.
  unfold strip, rstrip. split; intros c t H.
  - destruct (lstrip s) as [|d u] eqn:Hs; [discriminate |].
    pose proof (lstrip_head _ Hs) as Hd.
    cbn [rev] in H. rewrite lstrip_snoc in H by exact Hd.
    rewrite rev_app_distr in H. cbn in H. injection H as <- _. exact Hd.
  - rewrite rev_involutive in H. exact (lstrip_head _ H).
Qed.

(** A stripped text is the text without white space before and after. *)
Lemma lstrip_split (s : str) : exists w, all_space w /\ s = w ++ lstrip s.
Proof.
  induction s as [|c s [w [Hw Hs]]]; cbn [lstrip].
  - exists []. split; [constructor | reflexivity].
  - destruct (isspace c) eqn:Hc.
    + exists (c :: w). split; [constructor; assumption |].
      cbn [app]. rewrite <- Hs. reflexivity.
    + exists []. split; [constructor | reflexivity].
Qed.

Lemma strip_split (s : str) :
  exists w1 w2, all_space w1 /\ all_space w2 /\ s = w1 ++ strip s ++ w2.
Proof.
  destruct (lstrip_split s) as [w1 [H1 Hs]].
  destruct (lstrip_split (rev (lstrip s))) as [w2 [H2 Hr]].
  exists w1, (rev w2). split; [exact H1 |]. split; [apply all_space_rev; exact H2 |].
  unfold strip, rstrip. rewrite <- rev_app_distr, <- Hr, rev_involutive. exact Hs.
Qed.

(** X10: the gate does not see white space around the query: the verdict
    on a text between two runs of white space is the verdict on the
    text. *)
Theorem gate_ignores_surrounding_space (E : Env) (w1 s w2 : str) :
  all_space w1 -> all_space w2 ->
  QueryProcessor.validate_query_safety E (w1 ++ s ++ w2) =
  QueryProcessor.validate_query_safety E s.
Proof.
  intros H1 H2. unfold QueryProcessor.validate_query_safety.
  rewrite strip_pad by assumption. reflexivity.
Qed.

(** A query between a line break and a tab. *)
Lemma gate_ignores_surrounding_space_witness :
  let E := Stub.env [] (inr None) in
  QueryProcessor.validate_query_safety E
    ([32%N; 10%N] ++ lit "SELECT name FROM users" ++ [9%N; 32%N]) =
  QueryProcessor.validate_query_safety E (lit "SELECT name FROM users").
Proof.
  intros E. apply gate_ignores_surrounding_space.
  - repeat constructor.
  - repeat constructor.
Defined.

(** X9: an answer of the composer is the text of the model, which was not
    empty, stripped: it neither begins nor ends with white space, and it
    is empty exactly when the model answered with white space only. *)
Theorem build_answer_is_stripped (E : Env) (m : GenerativeModel) (rows : list pyval)
    (human_query : str) (h : trace) (answer : str) (h' : trace) :
  model E = Some m ->
  GeminiService.build_answer E rows human_query h = (inr answer, h') ->
  exists text,
    generate_content m h
      (GeminiService.answer_prompt human_query (json_dumps E (firstn 10 rows)))
      = inr text /\
    text <> [] /\
    answer = strip text /\
    (answer = [] <-> all_space text) /\
    (forall c t, answer = c :: t -> isspace c = false) /\
    (forall c t, rev answer = c :: t -> isspace c = false).
Proof.
  intros Hm Hrun.
  destruct (build_answer_run E rows human_query h Hm)
    as [r [Hb [(msg & -> & _) | (text & Hne & Hg & ->)]]];
    rewrite Hb in Hrun; [discriminate |].
  injection Hrun as <- _.
  exists text. split; [exact Hg |]. split; [exact Hne |]. split; [reflexivity |].
  split; [symmetry; apply strip_all_space |]. apply strip_edges.
Qed.

(** A reply of white space only: the composer succeeds with an empty
    answer. *)
Lemma build_answer_is_stripped_witness :
  let E := Stub.env [inr [32%N; 10%N]] (inr None) in
  exists text,
    text <> [] /\ all_space text /\
    GeminiService.build_answer E [] (lit "show all users") [] =
      (inr [], [EvGenerate (GeminiService.answer_prompt (lit "show all users")
                              (json_dumps E []))]).
Proof.
  intros E.
  destruct (@build_answer_is_stripped E (Stub.scripted_model [inr [32%N; 10%N]]) []
              (lit "show all users") [] []
              [EvGenerate (GeminiService.answer_prompt (lit "show all users")
                             (json_dumps E []))] eq_refl)
    as (text & Hg & Hne & _ & [Hall _] & _).
  - vm_compute. reflexivity.
  - exists text. split; [exact Hne |]. split; [exact (Hall eq_refl) |].
    vm_compute. reflexivity.
Defined.

(* ================================================================== *)
(** * The health checks *)
(* ================================================================== *)

(** The two health checks in terms of the collaborators. *)
Lemma database_health_check_run (E : Env) (h : trace) :
  match supabase E with
  | None => DatabaseService.health_check E h = (inr false, h)
  | Some client =>
      DatabaseService.health_check E h =
        (inr (match table_users_select_id client h with
              | inr _ => true
              | inl _ => false
              end), h ++ [EvSelectUsers])
  end.
Proof.
  unfold DatabaseService.health_check.
  destruct (supabase E) as [client|]; [| reflexivity].
  unfold try_except, bind, call, ret.
  destruct (table_users_select_id client h); reflexivity.
Qed.

Lemma llm_health_check_run (E : Env) (h : trace) :
  match model E with
  | None => GeminiService.health_check E h = (inr false, h)
  | Some m =>
      GeminiService.health_check E h =
        (inr (match generate_content m h GeminiService.health_prompt with
              | inr text => negb (is_empty text) && contains (lit "ok") (lower E text)
              | inl _ => false
              end), h ++ [EvGenerate GeminiService.health_prompt])
  end.
Proof.
  unfold GeminiService.health_check.
  destruct (model E) as [m|]; [| reflexivity].
  unfold try_except, bind, call, ret.
  destruct (generate_content m h GeminiService.health_prompt); reflexivity.
Qed.

(** The report of [get_health_status] from the answers of the two
    checks. *)
Lemma get_health_status_report (E : Env) (h : trace) :
  exists db llm h1 h2,
    DatabaseService.health_check E h = (inr db, h1) /\
    GeminiService.health_check E h1 = (inr llm, h2) /\
    QueryProcessor.get_health_status E h =
      (inr [ (lit "status",
              VStr (match db, llm with
                    | true, true => lit "healthy"
                    | false, false => lit "unhealthy"
                    | _, _ => lit "degraded"
                    end));
             (lit "services",
              VDict [ (lit "database", VBool db); (lit "llm", VBool llm) ]);
             (lit "message",
              VStr (match db, llm with
                    | true, true => lit "All services are working correctly"
                    | false, true => lit "Problems with: Supabase"
                    | true, false => lit "Problems with: Gemini"
                    | false, false =>
                        lit "Critical services unavailable - check your configuration"
                    end)) ], h2).
Proof.
  destruct (database_health_check_total E h) as [db [h1 Hd]].
  destruct (llm_health_check_total E h1) as [llm [h2 Hl]].
  exists db, llm, h1, h2. split; [exact Hd |]. split; [exact Hl |].
  unfold QueryProcessor.get_health_status, try_except, bind. rewrite Hd, Hl.
  unfold ret. destruct db, llm; vm_compute; reflexivity.
Qed.

(** X11: the report says healthy exactly when the database client is set
    and its probe of the users table did not raise, and the model is set
    and its answer to the health prompt, read after the probe, is not
    empty and holds [ok] once lowercased. *)
Theorem healthy_means_both_probes_pass (E : Env) (h : trace) :
  exists d h',
    QueryProcessor.get_health_status E h = (inr d, h') /\
    (Dict.get d (lit "status") = Some (VStr (lit "healthy")) <->
     exists client m text,
       supabase E = Some client /\
       (exists u, table_users_select_id client h = inr u) /\
       model E = Some m /\
       generate_content m (h ++ [EvSelectUsers]) GeminiService.health_prompt = inr text /\
       text <> [] /\
       contains (lit "ok") (lower E text) = true).
Proof.
  destruct (get_health_status_report E h) as (db & llm & h1 & h2 & Hd & Hl & Hrun).
  eexists _, _. split; [exact Hrun |].
  pose proof (database_health_check_run E h) as Hdb.
  destruct (supabase E) as [client|] eqn:Hs.
  2:{ rewrite Hd in Hdb. injection Hdb as -> ->.
      split; [destruct llm; intros H; vm_compute in H; discriminate |].
      intros (c & _ & _ & H & _). discriminate. }
  rewrite Hd in Hdb. injection Hdb as -> ->.
  pose proof (llm_health_check_run E (h ++ [EvSelectUsers])) as Hllm.
  destruct (model E) as [m|] eqn:Hm.
  2:{ rewrite Hl in Hllm. injection Hllm as -> ->.
      split; [destruct (table_users_select_id client h); intros H;
              vm_compute in H; discriminate |].
      intros (c & m & _ & _ & _ & H & _). discriminate. }
  rewrite Hl in Hllm. injection Hllm as -> ->.
  destruct (table_users_select_id client h) as [e | u] eqn:Hp.
  { split.
    - destruct (match generate_content m _ _ with inl _ => false | inr _ => _ end);
        intros H; vm_compute in H; discriminate.
    - intros (c & m' & text & Hc & [u Hu] & _). injection Hc as <-.
      rewrite Hp in Hu. discriminate. }
  destruct (generate_content m (h ++ [EvSelectUsers]) GeminiService.health_prompt)
    as [e | text] eqn:Hg.
  { split; [intros H; vm_compute in H; discriminate |].
    intros (c & m' & text & _ & _ & Hm' & Hg' & _). injection Hm' as <-.
    rewrite Hg in Hg'. discriminate. }
  destruct text as [|c text]; cbn [is_empty negb andb].
  { split; [intros H; vm_compute in H; discriminate |].
    intros (c & m' & text & _ & _ & Hm' & Hg' & Hne & _). injection Hm' as <-.
    rewrite Hg in Hg'. injection Hg' as <-. contradiction. }
  destruct (contains (lit "ok") (lower E (c :: text))) eqn:Hok.
  - split; [intros _ | intros _; vm_compute; reflexivity].
    exists client, m, (c :: text).
    split; [reflexivity |]. split; [exists u; exact Hp |].
    split; [reflexivity |]. split; [exact Hg |]. split; [discriminate | exact Hok].
  - split; [intros H; vm_compute in H; discriminate |].
    intros (c' & m' & text' & _ & _ & Hm' & Hg' & _ & Hok'). injection Hm' as <-.
    rewrite Hg in Hg'. injection Hg' as <-. rewrite Hok in Hok'. discriminate.
Qed.

(** X12: the message of the report names the one service that failed,
    and none when both failed or none did; the status [error], the message
    for an unknown status and a message naming both services are never
    produced. *)
Theorem health_message_names_the_failing_service (E : Env) (h : trace) :
  exists db llm h1 h2 d,
    DatabaseService.health_check E h = (inr db, h1) /\
    GeminiService.health_check E h1 = (inr llm, h2) /\
    QueryProcessor.get_health_status E h = (inr d, h2) /\
    Dict.get d (lit "message") =
      Some (VStr (match db, llm with
                  | true, true => lit "All services are working correctly"
                  | false, true => lit "Problems with: Supabase"
                  | true, false => lit "Problems with: Gemini"
                  | false, false =>
                      lit "Critical services unavailable - check your configuration"
                  end)) /\
    Dict.get d (lit "status") <> Some (VStr (lit "error")) /\
    Dict.get d (lit "message") <> Some (VStr (lit "Unknown system status")) /\
    Dict.get d (lit "message") <> Some (VStr (lit "Problems with: Supabase, Gemini")).
Proof.
  destruct (get_health_status_report E h) as (db & llm & h1 & h2 & Hd & Hl & Hrun).
  exists db, llm, h1, h2. eexists. split; [exact Hd |]. split; [exact Hl |].
  split; [exact Hrun |].
  destruct db, llm; (split; [reflexivity |]); repeat split;
    intros H; vm_compute in H; discriminate.
Qed.

(** X13: the handler of the health route never returns a response: the
    content it builds holds the timestamp as a datetime, which the response
    cannot render, and the content built by its own handler of that
    failure holds one too, so the second failure leaves the handler. *)
Theorem health_route_always_raises (E : Env) (h : trace) :
  exists h',
    Routes.health_check E h =
      (inl (Exception (lit "Object of type datetime is not JSON serializable")), h').
Proof.
  destruct (get_health_status_report E h) as (db & llm & h1 & h2 & _ & _ & Hrun).
  unfold Routes.health_check, try_except, bind. rewrite Hrun.
  destruct db, llm; vm_compute; eexists; reflexivity.
Qed.

(* ================================================================== *)
(** * Construction and translation failures *)
(* ================================================================== *)






(* ================================================================== *)
(** * The envelope extraction *)
(* ================================================================== *)

Section CleanFacts.
Local Open Scope nat_scope.

(** [find] and [rfind] answer -1 exactly when the text does not hold the
    searched string. *)
Lemma find_from_found (sub s : str) (i : Z) :
  (0 <= i)%Z ->
  (find_from sub s i = (-1)%Z <-> contains sub s = false) /\
  (find_from sub s i = (-1)%Z \/ (i <= find_from sub s i)%Z).
Proof.
  revert i. induction s as [|c s IH]; intros i Hi; cbn [find_from contains].
  - destruct (startswith [] sub); cbn [orb]; split; try (right; lia); try (left; reflexivity).
    + split; [lia | discriminate].
    + split; reflexivity.
  - destruct (startswith (c :: s) sub); cbn [orb].
    + split; [split; [lia | discriminate] | right; lia].
    + destruct (IH (i + 1)%Z ltac:(lia)) as [H1 H2]. split; [exact H1 |].
      destruct H2 as [H2 | H2]; [left; exact H2 | right; lia].
Qed.

Lemma rfind_from_found (sub s : str) (i : Z) :
  (0 <= i)%Z ->
  (rfind_from sub s i = (-1)%Z <-> contains sub s = false) /\
  (rfind_from sub s i = (-1)%Z \/
   (i <= rfind_from sub s i <= i + Z.of_nat (length s))%Z).
Proof.
  revert i. induction s as [|c s IH]; intros i Hi; cbn [rfind_from contains length].
  - destruct (startswith [] sub); cbn [orb]; split; try (right; lia); try (left; reflexivity).
    + split; [lia | discriminate].
    + split; reflexivity.
  - destruct (IH (i + 1)%Z ltac:(lia)) as [H1 H2].
    destruct (Z.eqb_spec (rfind_from sub s (i + 1)) (-1)) as [Hr | Hr].
    + destruct H1 as [H1 _]. rewrite (H1 Hr), orb_false_r.
      destruct (startswith (c :: s) sub).
      * split; [split; [lia | discriminate] | right; lia].
      * split; [split; reflexivity | left; reflexivity].
    + destruct H2 as [H2 | H2]; [contradiction |].
      split; [| right; lia].
      split; [intros H; contradiction |].
      intros H. apply orb_false_iff in H as [_ H]. apply H1 in H. contradiction.
Qed.

Lemma find_none (s sub : str) : find s sub = (-1)%Z <-> ~ occurs_in sub s.
Proof.
  unfold find. rewrite (proj1 (find_from_found sub s (i := 0) ltac:(lia))).
  apply contains_false.
Qed.

Lemma rfind_none (s sub : str) : rfind s sub = (-1)%Z <-> ~ occurs_in sub s.
Proof.
  unfold rfind. rewrite (proj1 (rfind_from_found sub s (i := 0) ltac:(lia))).
  apply contains_false.
Qed.

(** The slice between two indices in range is empty exactly when the
    second is not after the first. *)
Lemma slice_empty (s : str) (a b : Z) :
  (0 <= a < Z.of_nat (length s))%Z -> (0 <= b)%Z ->
  (slice s a b = [] <-> (b <= a)%Z).
Proof.
  intros Ha Hb. unfold slice, slice_index.
  destruct (Z.ltb_spec a 0) as [Ha0 | Ha0]; [lia |].
  destruct (Z.ltb_spec b 0) as [Hb0 | Hb0]; [lia |].
  rewrite (Z.min_l a) by lia.
  destruct (skipn (Z.to_nat a) s) as [|c t] eqn:Hsk.
  { exfalso. assert (Hl : length (skipn (Z.to_nat a) s) = 0) by (rewrite Hsk; reflexivity).
    rewrite length_skipn in Hl. lia. }
  destruct (Z.to_nat (Z.min b (Z.of_nat (length s)) - a)) as [|n] eqn:Hn; cbn [firstn].
  - split; [intros _; lia | reflexivity].
  - split; [discriminate | intros H; lia].
Qed.

Lemma find_in_range (text sub : str) :
  sub <> [] -> find text sub <> (-1)%Z ->
  (0 <= find text sub < Z.of_nat (length text))%Z.
Proof.
  intros Hsub Hfind.
  destruct (find_from_spec sub text 0 eq_refl) as [Hnone | [Hle Hst]];
    [contradiction |].
  fold (find text sub) in Hle, Hst. rewrite Z.sub_0_r in Hst.
  split; [exact Hle |].
  destruct (Z.ltb_spec (find text sub) (Z.of_nat (length text))) as [H | H]; [exact H |].
  rewrite skipn_all2 in Hst by lia.
  destruct sub; [contradiction | discriminate].
Qed.

Lemma envelope_payload_slice (text : str) :
  find text (lit "{") <> (-1)%Z ->
  let inner := slice text (find text (lit "{")) (rfind text (lit "}") + 1)%Z in
  (inner = [] /\ envelope_payload text = []) \/
  (exists t, envelope_payload text = 123%N :: t) /\ inner <> [].
Proof.
  intros Hfind inner.
  destruct (find_from_spec (lit "{") text 0 eq_refl) as [Hnone | [Hle Hst]];
    [contradiction |].
  fold (find text (lit "{")) in Hle, Hst. rewrite Z.sub_0_r in Hst.
  apply startswith_spec in Hst as [t Ht].
  change (lit "{" ++ t) with (123%N :: t) in Ht.
  unfold envelope_payload. cbv zeta. fold inner.
  destruct (slice_head text (rfind text (lit "}") + 1) Hle Ht) as [H | [t' H]];
    fold inner in H; rewrite H.
  - left. split; reflexivity.
  - right. split; [| discriminate].
    change (lit "```json") with (96%N :: lit "``json").
    rewrite replace_head by reflexivity.
    change (lit "```") with (96%N :: lit "``").
    rewrite replace_head by reflexivity.
    apply strip_head. reflexivity.
Qed.

(** X6: [_clean_json_response] raises, and then its one [ValueError],
    exactly when the text has no opening brace or no closing brace;
    otherwise its result is empty exactly when the last closing brace
    stands before the first opening brace, and begins with the opening
    brace when it is not empty. *)
Theorem clean_json_response_edges (text : str) :
  ((exists e, GeminiService._clean_json_response text = inl e) <->
   (~ occurs_in (lit "{") text \/ ~ occurs_in (lit "}") text)) /\
  (forall e, GeminiService._clean_json_response text = inl e ->
             e = ValueError (lit "No valid JSON found in response")) /\
  (forall payload, GeminiService._clean_json_response text = inr payload ->
     (payload = [] <-> (rfind text (lit "}") < find text (lit "{"))%Z) /\
     (payload <> [] -> exists rest, payload = lit "{" ++ rest)).
Proof.
  destruct (clean_json_response_payload text) as [[Hno Hc] | [Hpair Hc]]; rewrite Hc.
  - split; [| split].
    + split; [intros _ | intros _; eauto].
      destruct Hno as [H | H]; [left; apply find_none | right; apply rfind_none]; exact H.
    + intros e H. injection H as <-. reflexivity.
    + intros payload H. discriminate.
  - assert (Hf : find text (lit "{") <> (-1)%Z) by (intros H; apply Hpair; left; exact H).
    assert (Hr : rfind text (lit "}") <> (-1)%Z) by (intros H; apply Hpair; right; exact H).
    split; [| split].
    + split; [intros [e H]; discriminate |].
      intros [H | H]; exfalso; apply Hpair; [left; apply find_none | right; apply rfind_none];
        exact H.
    + intros e H. discriminate.
    + intros payload H. injection H as <-.
      assert (Hsub : lit "{" <> []) by discriminate.
      pose proof (@find_in_range text (lit "{") Hsub Hf) as Hrange.
      assert (Hb : (0 <= rfind text (lit "}") + 1)%Z).
      { destruct (proj2 (rfind_from_found (lit "}") text (i := 0) ltac:(lia)))
          as [H | H]; [contradiction | unfold rfind; lia]. }
      pose proof (@slice_empty text _ _ Hrange Hb) as Hslice.
      destruct (@envelope_payload_slice text Hf) as [[Hin Hp] | [[t Hp] Hin]]; rewrite Hp.
      * split; [| intros H; contradiction].
        split; [intros _ | reflexivity]. apply Hslice in Hin. lia.
      * split; [| intros _; exists t; reflexivity].
        split; [discriminate |]. intros Hlt. exfalso. apply Hin. apply Hslice. lia.
Qed.

End CleanFacts.

Section FenceFacts.
Local Open Scope nat_scope.

Lemma replace_aux_skip (old new : str) (k : nat) (s : str) :
  replace_aux old new k s = replace_aux old new 0 (skipn k s).
Proof.
  revert k. induction s as [|c t IH]; intros k.
  - destruct k; reflexivity.
  - destruct k as [|k]; [reflexivity |]. cbn [replace_aux skipn]. apply IH.
Qed.

(** Removing the fence marker, one step. *)
Lemma remove_fence_cons (c : char) (t : str) :
  replace (c :: t) [96; 96; 96]%N [] =
  if startswith (c :: t) [96; 96; 96]%N
  then replace (skipn 2 t) [96; 96; 96]%N []
  else c :: replace t [96; 96; 96]%N [].
Proof.
  unfold replace. cbn [replace_aux].
  destruct (startswith (c :: t) [96; 96; 96]%N); [| reflexivity].
  cbn [length Nat.sub app]. apply replace_aux_skip.
Qed.

Lemma remove_fence_head (s : str) :
  startswith s [96%N] = false ->
  startswith (replace s [96; 96; 96]%N []) [96%N] = false.
Proof.
  destruct s as [|c t]; [reflexivity |].
  intros H. rewrite remove_fence_cons.
  cbn [startswith] in *. rewrite andb_true_r in H. rewrite H. cbn [andb].
  cbn [startswith]. rewrite H. reflexivity.
Qed.

Lemma remove_fence_complete (n : nat) :
  forall s, length s <= n -> contains [96; 96; 96]%N (replace s [96; 96; 96]%N []) = false.
Proof.
  induction n as [|n IH]; intros s Hn.
  - destruct s; [reflexivity | cbn in Hn; lia].
  - destruct s as [|c t]; [reflexivity |]. cbn [length] in Hn.
    rewrite remove_fence_cons.
    destruct (startswith (c :: t) [96; 96; 96]%N) eqn:Hst.
    + apply IH. rewrite length_skipn. lia.
    + cbn [contains]. rewrite IH by lia. rewrite orb_false_r.
      (* the kept character cannot open a new marker *)
      cbn [startswith] in Hst |- *.
      destruct (c =? 96)%N eqn:Hc; [| reflexivity]. cbn [andb] in Hst |- *.
      destruct t as [|d u]; [reflexivity |].
      rewrite remove_fence_cons.
      destruct (startswith (d :: u) [96; 96; 96]%N) eqn:Hst2.
      { cbn [startswith] in Hst2. apply andb_true_iff in Hst2 as [Hd Hst2].
        rewrite Hd in Hst. cbn [andb] in Hst.
        destruct u as [|e v]; [discriminate |].
        apply andb_true_iff in Hst2 as [He _]. rewrite He in Hst. discriminate. }
      destruct (d =? 96)%N eqn:Hd; [| reflexivity]. cbn [andb] in Hst |- *.
      assert (Hu : startswith u [96%N] = false).
      { destruct u as [|e v]; [reflexivity |]. cbn [startswith].
        rewrite andb_true_r in Hst. rewrite andb_true_r. exact Hst. }
      pose proof (remove_fence_head u Hu) as Hr.
      destruct (replace u [96; 96; 96]%N []) as [|e v]; [reflexivity |].
      cbn [startswith] in Hr. rewrite andb_true_r in Hr. rewrite Hr. reflexivity.
Qed.

Lemma strip_keeps_absence (word s : str) :
  ~ occurs_in word s -> ~ occurs_in word (strip s).
Proof.
  intros Hno (a & b & H). apply Hno.
  destruct (strip_split s) as (w1 & w2 & _ & _ & Hs).
  exists (w1 ++ a), (b ++ w2). rewrite Hs at 1. rewrite H.
  rewrite <- !app_assoc. reflexivity.
Qed.

(** X7: the text [_clean_json_response] returns holds no code-fence
    marker, with or without the [json] tag, also when removing a marker
    brings back ticks together. *)
Theorem clean_json_response_has_no_fence (text payload : str) :
  GeminiService._clean_json_response text = inr payload ->
  ~ occurs_in (lit "```") payload /\ ~ occurs_in (lit "```json") payload.
Proof.
  intros Hc.
  assert (Hno : ~ occurs_in (lit "```") payload).
  { destruct (clean_json_response_payload text) as [[_ H] | [_ H]];
      rewrite H in Hc; [discriminate |].
    injection Hc as <-. unfold envelope_payload. cbv zeta.
    apply strip_keeps_absence. apply contains_false.
    change (lit "```") with [96; 96; 96]%N.
    eapply remove_fence_complete. apply Nat.le_refl. }
  split; [exact Hno |].
  intros (a & b & H). apply Hno. exists a, (lit "json" ++ b). rewrite H.
  reflexivity.
Qed.

(** Five ticks between the braces: three are removed, two stay. *)
Lemma clean_json_response_has_no_fence_witness :
  ~ occurs_in (lit "```") (lit "{ `` }") /\ ~ occurs_in (lit "```json") (lit "{ `` }").
Proof.
  apply (@clean_json_response_has_no_fence (lit "Here: ```json { ````` } ```")).
  vm_compute. reflexivity.
Defined.

End FenceFacts.

Section CommentaryFacts.
Local Open Scope nat_scope.

Lemma contains_char_cons (c d : char) (s : str) :
  contains [c] (d :: s) = false -> (d =? c)%N = false /\ contains [c] s = false.
Proof.
  cbn [contains startswith]. rewrite andb_true_r. intros H.
  apply orb_false_iff in H. exact H.
Qed.

(** The first occurrence of a character after a text that does not hold
    it. *)
Lemma find_from_after (c : char) (pre rest : str) (i : Z) :
  contains [c] pre = false ->
  find_from [c] (pre ++ c :: rest) i = (i + Z.of_nat (length pre))%Z.
Proof.
  revert i. induction pre as [|d pre IH]; intros i Hno.
  - cbn [app find_from startswith length]. rewrite N.eqb_refl. cbn. lia.
  - apply contains_char_cons in Hno as [Hd Hno].
    cbn [app find_from startswith length]. rewrite Hd. cbn [andb].
    rewrite IH by exact Hno. lia.
Qed.

Lemma rfind_from_absent (c : char) (post : str) (i : Z) :
  contains [c] post = false -> rfind_from [c] post i = (-1)%Z.
Proof.
  revert i. induction post as [|d post IH]; intros i Hno; [reflexivity |].
  apply contains_char_cons in Hno as [Hd Hno].
  cbn [rfind_from startswith]. rewrite IH by exact Hno. rewrite Hd. reflexivity.
Qed.

(** The last occurrence of a character before a text that does not hold
    it. *)
Lemma rfind_from_before (c : char) (s post : str) (i : Z) :
  (0 <= i)%Z ->
  contains [c] post = false ->
  rfind_from [c] (s ++ c :: post) i = (i + Z.of_nat (length s))%Z.
Proof.
  revert i. induction s as [|d s IH]; intros i Hi Hno.
  - cbn [app rfind_from startswith length].
    rewrite rfind_from_absent by exact Hno. rewrite N.eqb_refl. cbn. lia.
  - cbn [app rfind_from length]. rewrite IH by (lia || exact Hno).
    destruct (Z.eqb_spec (i + 1 + Z.of_nat (length s)) (-1)); lia.
Qed.

Lemma slice_middle (a b c : str) :
  slice (a ++ b ++ c) (Z.of_nat (length a)) (Z.of_nat (length a + length b)) = b.
Proof.
  unfold slice, slice_index. rewrite !length_app.
  destruct (Z.ltb_spec (Z.of_nat (length a)) 0) as [H | H]; [lia |].
  destruct (Z.ltb_spec (Z.of_nat (length a + length b)) 0) as [H' | H']; [lia |].
  rewrite Z.min_l by lia. rewrite Z.min_l by lia.
  rewrite Nat2Z.id.
  replace (Z.to_nat (Z.of_nat (length a + length b) - Z.of_nat (length a)))
    with (length b) by lia.
  rewrite skipn_app, skipn_all, Nat.sub_diag. cbn [skipn app].
  rewrite firstn_app, firstn_all, Nat.sub_diag. cbn [firstn]. apply app_nil_r.
Qed.

(** X8: what stands before the first opening brace and after the last
    closing brace does not count: around a text from an opening to a
    closing brace, commentary without an opening brace before it and
    without a closing brace after it leaves the result of
    [_clean_json_response] as it is. *)
Theorem clean_json_response_ignores_commentary (pre mid post : str) :
  contains (lit "{") pre = false ->
  contains (lit "}") post = false ->
  let envelope := lit "{" ++ mid ++ lit "}" in
  GeminiService._clean_json_response (pre ++ envelope ++ post) =
  GeminiService._clean_json_response envelope /\
  GeminiService._clean_json_response envelope =
    inr (strip (replace (replace envelope (lit "```json") []) (lit "```") [])).
Proof.
  intros Hpre Hpost envelope. subst envelope.
  change (lit "{") with [123%N] in *. change (lit "}") with [125%N] in *.
  set (envelope := [123%N] ++ mid ++ [125%N]).
  assert (Hclean : forall a c,
    contains [123%N] a = false -> contains [125%N] c = false ->
    GeminiService._clean_json_response (a ++ envelope ++ c) =
      inr (strip (replace (replace envelope (lit "```json") []) (lit "```") []))).
  { intros a c Ha Hc. unfold GeminiService._clean_json_response. cbv zeta.
    change (lit "{") with [123%N]. change (lit "}") with [125%N].
    assert (Hfind : find (a ++ envelope ++ c) [123%N] = Z.of_nat (length a)).
    { unfold find, envelope. cbn [app].
      rewrite find_from_after by exact Ha. lia. }
    assert (Hrfind : rfind (a ++ envelope ++ c) [125%N] =
                     Z.of_nat (length a + length envelope - 1)).
    { unfold rfind, envelope.
      replace (a ++ ([123%N] ++ mid ++ [125%N]) ++ c)
        with ((a ++ 123%N :: mid) ++ 125%N :: c)
        by (rewrite <- !app_assoc; reflexivity).
      rewrite rfind_from_before by (lia || exact Hc).
      rewrite !length_app. cbn [length]. lia. }
    rewrite Hfind, Hrfind.
    assert (Hlen : 0 < length envelope).
    { unfold envelope. rewrite length_app. cbn [length]. lia. }
    destruct (Z.eqb_spec (Z.of_nat (length a)) (-1)); [lia |].
    destruct (Z.eqb_spec (Z.of_nat (length a + length envelope - 1) + 1) 0); [lia |].
    cbn [orb].
    replace (Z.of_nat (length a + length envelope - 1) + 1)%Z
      with (Z.of_nat (length a + length envelope)) by lia.
    rewrite slice_middle. reflexivity. }
  assert (H0 : GeminiService._clean_json_response envelope =
                inr (strip (replace (replace envelope (lit "```json") [])
                              (lit "```") []))).
  { pose proof (Hclean [] [] eq_refl eq_refl) as H0.
    cbn [app] in H0. rewrite app_nil_r in H0. exact H0. }
  split; [| exact H0].
  etransitivity; [exact (Hclean pre post Hpre Hpost) | symmetry; exact H0].
Qed.

(** A fenced answer with a greeting before and a remark after. *)
Lemma clean_json_response_ignores_commentary_witness :
  GeminiService._clean_json_response
    (lit "Sure! ```json " ++ (lit "{" ++ lit " select " ++ lit "}") ++ lit " ``` done") =
  GeminiService._clean_json_response (lit "{" ++ lit " select " ++ lit "}").
Proof.
  exact (proj1 (@clean_json_response_ignores_commentary
                  (lit "Sure! ```json ") (lit " select ") (lit " ``` done")
                  eq_refl eq_refl)).
Defined.

End CommentaryFacts.
